(** * Luna Social: the recommendation engine of [backend.py]

    A shallow embedding of [RecommendationEngine] (venue ranking, ranker
    training, user compatibility) together with the part of [LunaDatabase]
    it reads.

    Modelling conventions.
    - Python [float] values are real numbers ([R]); rounding, infinities and
      NaN are outside the model.  Python [int] values are [Z] or, for
      counters that start at zero and only grow, [nat].
    - A table of the SQLite database is the list of its rows in the order
      the [SELECT] of the corresponding accessor returns them.
    - Python dictionaries used as finite maps are [gmap]s; the one
      dictionary that is iterated ([venue_label]) is an association list in
      insertion order.
    - A call either returns a value or raises: [result]. *)

From Stdlib Require Import Reals Lra Lia ZArith List String Ascii.
From Stdlib Require Import DecimalString DecimalNat Permutation Sorted.
From stdpp Require Import base option list gmap strings.

Local Open Scope string_scope.
Local Open Scope R_scope.

(** ** Data model *)

Inductive VenueCategory :=
  | CAFE | RESTAURANT | NIGHTLIFE | HIKING | ART
  | MOVIE | PARK | BEACH | SHOPPING | GYM.

(** [VenueCategory.value] *)
Definition value (c : VenueCategory) : string :=
  match c with
  | CAFE => "Café"
  | RESTAURANT => "Restaurant"
  | NIGHTLIFE => "Nightlife"
  | HIKING => "Hiking"
  | ART => "Art Gallery"
  | MOVIE => "Movie Theater"
  | PARK => "Park"
  | BEACH => "Beach"
  | SHOPPING => "Shopping"
  | GYM => "Gym"
  end.

Inductive InteractionType := VIEW | LIKE | COMMENT | SAVE | CLICK | VISIT.

Definition Coordinate : Type := R * R.

(** The dataclasses.  Timestamps and the display-only fields of [Venue]
    (image, address, phone, hours, website) play no part in the engine and
    are left out. *)
Module User.
Record t := mk {
  user_id : string;
  username : string;
  email : string;
  location : Coordinate;
  bio : string;
  avatar_url : string;
  verified : bool;
  interests : list string;
  saved_venues : list string;
  bookings : list string;
  friends : list string;
  blocked_users : list string
}.
End User.

Module Venue.
Record t := mk {
  venue_id : string;
  name : string;
  category : VenueCategory;
  location : Coordinate;
  description : string;
  rating : R;
  capacity : Z;
  trending_score : R
}.
End Venue.

Module Interaction.
Record t := mk {
  interaction_id : string;
  user_id : string;
  venue_id : string;
  interaction_type : InteractionType;
  duration_seconds : Z
}.
End Interaction.

Module Booking.
Record t := mk {
  booking_id : string;
  user_id : string;
  venue_id : string;
  party_size : Z;
  status : string
}.
End Booking.

(** The dictionary returned by [build_user_profile]. *)
Module Profile.
Record t := mk {
  user_id : string;
  location : Coordinate;
  interests : list string;
  category_scores : gmap string R;
  total_engagement : nat;
  avg_view_time : R
}.
End Profile.

(** ** Exceptions *)

Inductive exn :=
  | AttributeError (attr : string)
      (* 'NoneType' object has no attribute [attr] *)
  | NotFound (entity : string).
      (* the missing-entity error of the specification's taxonomy; no
         statement of the source raises it *)

Inductive result (A : Type) :=
  | Ok (a : A)
  | Raise (e : exn).
Arguments Ok {A} a.
Arguments Raise {A} e.

#[global] Instance result_ret : MRet result := fun A a => Ok a.
#[global] Instance result_bind : MBind result := fun A B k r =>
  match r with
  | Ok a => k a
  | Raise e => Raise e
  end.

(** ** SpatialMath: [calculate_distance] *)

(** [math.radians] *)
Definition radians (x : R) : R := x * (PI / 180).

(** The argument of the square root in the Haversine formula. *)
Definition haversine_a (loc1 loc2 : Coordinate) : R :=
  let '(lat1, lon1) := loc1 in
  let '(lat2, lon2) := loc2 in
  let dlat := radians (lat2 - lat1) in
  let dlon := radians (lon2 - lon1) in
  sin (dlat / 2) ^ 2
  + cos (radians lat1) * cos (radians lat2) * sin (dlon / 2) ^ 2.

Definition calculate_distance (loc1 loc2 : Coordinate) : R :=
  let R_earth := 6371 in
  let a := haversine_a loc1 loc2 in
  let c := 2 * asin (sqrt a) in
  R_earth * c.

(** ** FeatureExtractor: [get_venue_features] *)

Definition get_venue_features (venue : Venue.t) (user_profile : Profile.t)
  : list R :=
  let distance :=
    calculate_distance (Profile.location user_profile) (Venue.location venue) in
  let distance_score := Rmax 0 (1 - distance / 10) in
  let scores := Profile.category_scores user_profile in
  let key := value (Venue.category venue) in
  let category_match := if decide (is_Some (scores !! key)) then 1 else 0.5 in
  let category_engagement := default 0.1 (scores !! key) in
  [ Venue.rating venue / 5;
    distance_score;
    Venue.trending_score venue;
    category_match * category_engagement;
    IZR (Venue.capacity venue) / 1000 ].

(** ** The database layer read by the engine *)

Record LunaDatabase := {
  users : list User.t;
  venues : list Venue.t;
  interactions : list Interaction.t;
  bookings : list Booking.t
}.

(** [SELECT user_id FROM users] *)
Definition get_all_user_ids (db : LunaDatabase) : list string :=
  User.user_id <$> users db.

(** [SELECT * FROM users WHERE user_id = ?], first row or [None] *)
Definition get_user (db : LunaDatabase) (user_id : string) : option User.t :=
  head (filter (fun u => User.user_id u = user_id) (users db)).

Definition get_venue (db : LunaDatabase) (venue_id : string) : option Venue.t :=
  head (filter (fun v => Venue.venue_id v = venue_id) (venues db)).

Definition get_all_venues (db : LunaDatabase) : list Venue.t := venues db.

Definition get_user_interactions (db : LunaDatabase) (user_id : string)
  : list Interaction.t :=
  filter (fun i => Interaction.user_id i = user_id) (interactions db).

Definition get_user_bookings (db : LunaDatabase) (user_id : string)
  : list Booking.t :=
  filter (fun b => Booking.user_id b = user_id) (bookings db).

(** ** scikit-learn objects

    A scaler or a forest is represented by the arguments that determine it:
    the data it was fitted on and, for the forest, its hyper-parameters. *)

Inductive StandardScaler :=
  | scaler_new
  | scaler_fitted (X : list (list R)).

Definition scaler_fit (s : StandardScaler) (X : list (list R)) : StandardScaler :=
  scaler_fitted X.

Inductive ScaledMatrix :=
  | scaler_transform (s : StandardScaler) (X : list (list R)).

Record RandomForestRegressor := {
  n_estimators : Z;
  max_depth : Z;
  random_state : Z;
  fitted_X : ScaledMatrix;
  fitted_y : list R
}.

(** The engine object.  [__init__] sets [db] and a fresh scaler;
    [rank_model] and [training_samples] exist only after a successful
    training ([None]: the attribute is absent). *)
Record RecommendationEngine := {
  db : LunaDatabase;
  scaler : StandardScaler;
  rank_model : option RandomForestRegressor;
  training_samples : option nat
}.

Definition init (d : LunaDatabase) : RecommendationEngine :=
  {| db := d; scaler := scaler_new; rank_model := None;
     training_samples := None |}.

(** ** ProfileBuilder: [build_user_profile] *)

(** One value of the [defaultdict] [category_engagement]. *)
Record Metrics := {
  views : nat;
  likes : nat;
  saves : nat;
  visits : nat
}.

Definition metrics0 : Metrics :=
  {| views := 0; likes := 0; saves := 0; visits := 0 |}.

(** [category_engagement[category][...] += 1]: reading a missing key of the
    [defaultdict] inserts the zero metrics first. *)
Definition bump (f : Metrics -> Metrics) (category : string)
    (ce : gmap string Metrics) : gmap string Metrics :=
  <[category := f (default metrics0 (ce !! category))]> ce.

Definition add_view (m : Metrics) : Metrics :=
  {| views := S (views m); likes := likes m; saves := saves m; visits := visits m |}.
Definition add_like (m : Metrics) : Metrics :=
  {| views := views m; likes := S (likes m); saves := saves m; visits := visits m |}.
Definition add_save (m : Metrics) : Metrics :=
  {| views := views m; likes := likes m; saves := S (saves m); visits := visits m |}.
Definition add_visit (m : Metrics) : Metrics :=
  {| views := views m; likes := likes m; saves := saves m; visits := S (visits m) |}.

(** Body of the loop over the interactions; the state is
    [(category_engagement, total_view_time)]. *)
Definition profile_step (d : LunaDatabase)
    (st : gmap string Metrics * Z) (interaction : Interaction.t)
  : gmap string Metrics * Z :=
  let '(ce, total_view_time) := st in
  match get_venue d (Interaction.venue_id interaction) with
  | Some venue =>
      let category := value (Venue.category venue) in
      match Interaction.interaction_type interaction with
      | VIEW => (bump add_view category ce,
                 (total_view_time + Interaction.duration_seconds interaction)%Z)
      | LIKE => (bump add_like category ce, total_view_time)
      | SAVE => (bump add_save category ce, total_view_time)
      | VISIT => (bump add_visit category ce, total_view_time)
      | COMMENT | CLICK => (ce, total_view_time)
      end
  | None => (ce, total_view_time)
  end.

Definition category_score (metrics : Metrics) : R :=
  INR (views metrics) * 0.3 + INR (likes metrics) * 1.0
  + INR (saves metrics) * 1.5 + INR (visits metrics) * 2.0.

Definition is_view (i : Interaction.t) : Prop :=
  Interaction.interaction_type i = VIEW.

#[global] Instance InteractionType_eq_dec : EqDecision InteractionType.
Proof. solve_decision. Defined.

Definition build_user_profile (self : RecommendationEngine) (user_id : string)
  : result Profile.t :=
  let user := get_user (db self) user_id in
  let interactions := get_user_interactions (db self) user_id in
  let '(category_engagement, total_view_time) :=
    fold_left (profile_step (db self)) interactions (∅, 0%Z) in
  let category_scores := category_score <$> category_engagement in
  match user with
  | None => Raise (AttributeError "location")
  | Some u =>
      Ok {| Profile.user_id := user_id;
            Profile.location := User.location u;
            Profile.interests := User.interests u;
            Profile.category_scores := category_scores;
            Profile.total_engagement := length interactions;
            Profile.avg_view_time :=
              IZR total_view_time
              / INR (Nat.max (length (filter is_view interactions)) 1) |}
  end.

(** ** HybridScorer: [recommend_venues] *)

(** [str.lower], on the ASCII letters. *)
Definition lower_ascii (c : ascii) : ascii :=
  let n := nat_of_ascii c in
  if (65 <=? n)%nat && (n <=? 90)%nat then ascii_of_nat (n + 32) else c.

Fixpoint lower (s : string) : string :=
  match s with
  | EmptyString => EmptyString
  | String c s' => String (lower_ascii c) (lower s')
  end.

(** [needle in hay] on strings. *)
Fixpoint contains (needle hay : string) : bool :=
  String.prefix needle hay
  || match hay with
     | EmptyString => false
     | String _ hay' => contains needle hay'
     end.

(** [features * weights] and [np.sum]. *)
Definition np_mul (xs ys : list R) : list R := zip_with Rmult xs ys.
Definition np_sum (xs : list R) : R := foldr Rplus 0 xs.

Definition weights : list R := [0.25; 0.25; 0.2; 0.25; 0.05].

Definition interest_matches (interest : string) (venue : Venue.t) : bool :=
  contains (lower interest) (lower (Venue.name venue))
  || contains (lower interest) (lower (Venue.description venue)).

Definition interest_boost_of (interests : list string) (venue : Venue.t) : R :=
  fold_left
    (fun interest_boost interest =>
       if interest_matches interest venue then interest_boost + 0.15
       else interest_boost)
    interests 0.

(** One entry of [reasoning_details]. *)
Record ReasoningDetail := {
  rd_venue : string;
  rating_component : R;
  distance_component : R;
  trending_component : R;
  category_component : R;
  rd_interest_boost : R;
  rd_category_boost : R;
  rd_final_score : R
}.

Inductive PyVal :=
  | VStr (s : string)
  | VFloat (x : R).

(** The dictionary literal appended to [reasoning_details], key by key. *)
Definition as_dict (d : ReasoningDetail) : list (string * PyVal) :=
  [ ("venue", VStr (rd_venue d));
    ("rating_component", VFloat (rating_component d));
    ("distance_component", VFloat (distance_component d));
    ("trending_component", VFloat (trending_component d));
    ("category_component", VFloat (category_component d));
    ("interest_boost", VFloat (rd_interest_boost d));
    ("category_boost", VFloat (rd_category_boost d));
    ("final_score", VFloat (rd_final_score d)) ].

(** [d.get(k)] on a dictionary kept as an association list. *)
Fixpoint dict_get {V} (d : list (string * V)) (k : string) : option V :=
  match d with
  | [] => None
  | (k', v) :: d' => if decide (k' = k) then Some v else dict_get d' k
  end.

(** [d[k] = v]: an existing key keeps its position, a new one goes last. *)
Fixpoint dict_set {V} (d : list (string * V)) (k : string) (v : V)
  : list (string * V) :=
  match d with
  | [] => [(k, v)]
  | (k', v') :: d' =>
      if decide (k' = k) then (k, v) :: d' else (k', v') :: dict_set d' k v
  end.

(** [list.sort(key=..., reverse=True)]: stable, largest key first. *)
Fixpoint insert_desc {A} (key : A -> R) (x : A) (l : list A) : list A :=
  match l with
  | [] => [x]
  | y :: l' =>
      if Rlt_dec (key x) (key y) then y :: insert_desc key x l' else x :: l
  end.

Definition sort_desc {A} (key : A -> R) (l : list A) : list A :=
  foldr (insert_desc key) [] l.

(** [l[:limit]], a negative [limit] counting from the end. *)
Definition slice_to {A} (limit : Z) (l : list A) : list A :=
  if (0 <=? limit)%Z then take (Z.to_nat limit) l
  else take (length l - Z.to_nat (- limit)) l.

Definition ScoredVenue : Type := Venue.t * R * R * R.

Definition sv_score (x : ScoredVenue) : R := x.1.1.2.

(** Body of the loop over [all_venues]: the tuple appended to
    [scored_venues] and the entry appended to [reasoning_details]. *)
Definition score_venue (self : RecommendationEngine) (user_id : string)
    (user_profile : Profile.t) (venue : Venue.t)
  : ScoredVenue * ReasoningDetail :=
  let 'tt :=
    if decide (Venue.venue_id venue
               ∈ Booking.venue_id <$> get_user_bookings (db self) user_id)
    then tt (* pass *) else tt in
  let features := get_venue_features venue user_profile in
  let base_score := np_sum (np_mul features weights) in
  let interest_boost :=
    interest_boost_of (Profile.interests user_profile) venue in
  let category_boost :=
    default 0 (Profile.category_scores user_profile
               !! value (Venue.category venue)) * 0.1 in
  let final_score := Rmin 1 (base_score + interest_boost + category_boost) in
  ((venue, final_score, interest_boost, category_boost),
   {| rd_venue := Venue.name venue;
      rating_component := nth 0 features 0;
      distance_component := nth 1 features 0;
      trending_component := nth 2 features 0;
      category_component := nth 3 features 0;
      rd_interest_boost := interest_boost;
      rd_category_boost := category_boost;
      rd_final_score := final_score |}).

Record Reasoning := {
  algorithm : string;
  details : list ReasoningDetail
}.

Definition recommend_venues (self : RecommendationEngine) (user_id : string)
    (limit : Z) (show_reasoning : bool)
  : result (list (Venue.t * R) * Reasoning) :=
  user_profile ← build_user_profile self user_id;
  let all_venues := get_all_venues (db self) in
  let scored := score_venue self user_id user_profile <$> all_venues in
  let scored_venues := sort_desc sv_score (fst <$> scored) in
  let recommendations :=
    (fun x : ScoredVenue => (x.1.1.1, x.1.1.2)) <$> slice_to limit scored_venues in
  let reasoning_details := sort_desc rd_final_score (snd <$> scored) in
  Ok (recommendations,
      {| algorithm := "Hybrid Recommendation Engine";
         details := slice_to limit reasoning_details |}).

(** ** RankerTrainer: [train_ranker_from_interactions] *)

Definition interaction_label (inter : Interaction.t) : option R :=
  match Interaction.interaction_type inter with
  | LIKE | SAVE | VISIT => Some 1
  | VIEW =>
      if (Interaction.duration_seconds inter <=? 15)%Z then Some 0
      else if (Interaction.duration_seconds inter >=? 60)%Z then Some 1
      else None
  | COMMENT | CLICK => None
  end.

(** Body of the loop that fills [venue_label]. *)
Definition label_step (venue_label : list (string * R)) (inter : Interaction.t)
  : list (string * R) :=
  match interaction_label inter with
  | None => venue_label (* continue *)
  | Some label =>
      let prev := default 0 (dict_get venue_label (Interaction.venue_id inter)) in
      dict_set venue_label (Interaction.venue_id inter) (Rmax prev label)
  end.

Definition aggregate_labels (interactions : list Interaction.t)
  : list (string * R) :=
  fold_left label_step interactions [].

(** Body of the loop over [venue_label.items()]; the state is [(X, y)]. *)
Definition sample_step (d : LunaDatabase) (profile : Profile.t)
    (Xy : list (list R) * list R) (item : string * R)
  : list (list R) * list R :=
  let '(vid, label) := item in
  match get_venue d vid with
  | None => Xy (* continue *)
  | Some venue =>
      let feats := get_venue_features venue profile in
      ((Xy.1 ++ [feats])%list, (Xy.2 ++ [label])%list)
  end.

(** The loop over [user_ids]. *)
Fixpoint assemble (self : RecommendationEngine) (user_ids : list string)
    (Xy : list (list R) * list R) : result (list (list R) * list R) :=
  match user_ids with
  | [] => Ok Xy
  | uid :: rest =>
      profile ← build_user_profile self uid;
      let interactions := get_user_interactions (db self) uid in
      let venue_label := aggregate_labels interactions in
      assemble self rest (fold_left (sample_step (db self) profile) venue_label Xy)
  end.

(** The method returns [None]; its effect is the new state of [self]. *)
Definition train_ranker_from_interactions (self : RecommendationEngine)
    (min_samples : Z) : result RecommendationEngine :=
  let user_ids := get_all_user_ids (db self) in
  match user_ids with
  | [] => Ok self
  | _ =>
      Xy ← assemble self user_ids ([], []);
      let '(X, y) := Xy in
      if (Z.of_nat (length X) <? min_samples)%Z then Ok self
      else
        let scaler' := scaler_fit (scaler self) X in
        let X_scaled := scaler_transform scaler' X in
        let rf := {| n_estimators := 80; max_depth := 6; random_state := 42;
                     fitted_X := X_scaled; fitted_y := y |} in
        Ok {| db := db self; scaler := scaler';
              rank_model := Some rf;
              training_samples := Some (length X) |}
  end.

(** ** CompatibilityScorer: [recommend_users] *)

Fixpoint zeros (n : nat) : string :=
  match n with
  | O => ""
  | S n' => String "0" (zeros n')
  end.

(** [f"{i:03d}"] for [i >= 0] *)
Definition format_03d (i : nat) : string :=
  let digits := NilEmpty.string_of_uint (Nat.to_uint i) in
  zeros (3 - String.length digits) ++ digits.

(** [f"user_{i:03d}"] *)
Definition candidate_id (i : nat) : string := "user_" ++ format_03d i.

(** The [while True] loop that gathers the candidates.  [fuel] bounds the
    number of iterations; [None] means the bound was reached before the
    [break]. *)
Fixpoint collect_users (d : LunaDatabase) (user_id : string)
    (target_user : User.t) (fuel i : nat) (all_users : list User.t)
  : option (list User.t) :=
  match fuel with
  | O => None
  | S fuel' =>
      match get_user d (candidate_id i) with
      | None => Some all_users (* break *)
      | Some user =>
          let all_users' :=
            if decide (User.user_id user ≠ user_id
                       ∧ User.user_id user ∉ User.blocked_users target_user)
            then (all_users ++ [user])%list else all_users in
          collect_users d user_id target_user fuel' (S i) all_users'
      end
  end.

Definition interest_overlap (target_profile other_profile : Profile.t) : R :=
  let a : gset string := list_to_set (Profile.interests target_profile) in
  let b : gset string := list_to_set (Profile.interests other_profile) in
  INR (size (a ∩ b)) / INR (Nat.max (size (a ∪ b)) 1).

Definition category_overlap (target_profile other_profile : Profile.t) : R :=
  let target_categories : gset string :=
    dom (Profile.category_scores target_profile) in
  let other_categories : gset string :=
    dom (Profile.category_scores other_profile) in
  INR (size (target_categories ∩ other_categories))
  / INR (Nat.max (size (target_categories ∪ other_categories)) 1).

Definition location_score (target_profile other_profile : Profile.t) : R :=
  let distance :=
    calculate_distance (Profile.location target_profile)
                       (Profile.location other_profile) in
  Rmax 0 (1 - distance / 20).

Definition compatibility_score (target_profile other_profile : Profile.t) : R :=
  interest_overlap target_profile other_profile * 0.4
  + category_overlap target_profile other_profile * 0.35
  + location_score target_profile other_profile * 0.25.

(** The loop over [all_users]. *)
Fixpoint score_users (self : RecommendationEngine) (target_profile : Profile.t)
    (all_users : list User.t) : result (list (User.t * R)) :=
  match all_users with
  | [] => Ok []
  | other_user :: rest =>
      other_profile ← build_user_profile self (User.user_id other_user);
      scored ← score_users self target_profile rest;
      Ok ((other_user, compatibility_score target_profile other_profile)
          :: scored)
  end.

Definition recommend_users_fuel (fuel : nat) (self : RecommendationEngine)
    (user_id : string) (limit : Z) : option (result (list (User.t * R))) :=
  let target_user := get_user (db self) user_id in
  match build_user_profile self user_id with
  | Raise e => Some (Raise e)
  | Ok target_profile =>
      match target_user with
      | None => Some (Raise (AttributeError "blocked_users"))
      | Some target =>
          match collect_users (db self) user_id target fuel 0 [] with
          | None => None
          | Some all_users =>
              Some (scored_users ← score_users self target_profile all_users;
                    Ok (slice_to limit (sort_desc snd scored_users)))
          end
      end
  end.

(** Every iteration that does not break has found one more row of [users],
    so one more iteration than there are rows suffices (see
    [collect_users_enough_fuel]). *)
Definition recommend_users (self : RecommendationEngine) (user_id : string)
    (limit : Z) : option (result (list (User.t * R))) :=
  recommend_users_fuel (S (length (users (db self)))) self user_id limit.

(** ** Validity of the inputs (section 3 of the specification) *)

Definition valid_venue (v : Venue.t) : Prop :=
  0 <= Venue.rating v <= 5
  /\ 0 <= Venue.trending_score v <= 1
  /\ (0 < Venue.capacity v)%Z.

Definition nonneg_scores (p : Profile.t) : Prop :=
  forall k x, Profile.category_scores p !! k = Some x -> 0 <= x.

(** ** The training set *)

(** The labelled samples that [train_ranker_from_interactions] assembles
    before its gate. *)
Definition training_set (self : RecommendationEngine)
  : result (list (list R) * list R) :=
  assemble self (get_all_user_ids (db self)) ([], []).

(** ** The labelling policy of section 4.5, in the specification's words *)

Definition spec_label (kind : InteractionType) (duration_seconds : Z)
  : option R :=
  if decide (kind = LIKE \/ kind = SAVE \/ kind = VISIT) then Some 1
  else if decide (kind = VIEW /\ (duration_seconds <= 15)%Z) then Some 0
  else if decide (kind = VIEW /\ (60 <= duration_seconds)%Z) then Some 1
  else None.

(** The labels of the qualifying interactions with venue [vid], in the
    order of the log. *)
Definition labels_for (vid : string) (interactions : list Interaction.t)
  : list R :=
  omap (fun i => spec_label (Interaction.interaction_type i)
                            (Interaction.duration_seconds i))
       (filter (fun i => Interaction.venue_id i = vid) interactions).

(** The largest element of a list, [None] for the empty list. *)
Definition maximum (ls : list R) : option R :=
  match ls with
  | [] => None
  | x :: ls' => Some (fold_left Rmax ls' x)
  end.

(** What one more label does to the entry of a venue in [venue_label]. *)
Definition keep_max (o : option R) (label : R) : option R :=
  Some (Rmax (default 0 o) label).

(** ** Candidate identifiers *)

(** Reading back the number of a candidate identifier (used to show that
    distinct counters give distinct identifiers). *)
Definition parse_candidate_id (s : string) : option nat :=
  match s with
  | String "u" (String "s" (String "e" (String "r" (String "_" digits)))) =>
      option_map Nat.of_uint (NilEmpty.uint_of_string digits)
  | _ => None
  end.

(** The identifiers that the candidate loop of [recommend_users] reaches:
    [user_000], [user_001], ... up to, and without, the first one that is
    not the [user_id] of a stored user. *)
Definition in_initial_run (d : LunaDatabase) (id : string) : Prop :=
  exists i, id = candidate_id i
            /\ forall j, (j <= i)%nat -> is_Some (get_user d (candidate_id j)).

(** ** Concrete data used in the examples *)

Definition mk_user (id : string) (loc : Coordinate)
    (interests blocked : list string) : User.t :=
  {| User.user_id := id; User.username := id; User.email := id;
     User.location := loc; User.bio := ""; User.avatar_url := "";
     User.verified := false; User.interests := interests;
     User.saved_venues := []; User.bookings := []; User.friends := [];
     User.blocked_users := blocked |}.

Definition pasta_perfetto : Venue.t :=
  {| Venue.venue_id := "ven_004"; Venue.name := "Pasta Perfetto";
     Venue.category := RESTAURANT; Venue.location := (40.7128, -74.0060);
     Venue.description := "Authentic Italian restaurant";
     Venue.rating := 4.9; Venue.capacity := 100;
     Venue.trending_score := 0.5 |}.

Definition visit_pasta : Interaction.t :=
  {| Interaction.interaction_id := "inter_0000";
     Interaction.user_id := "user_000"; Interaction.venue_id := "ven_004";
     Interaction.interaction_type := VISIT;
     Interaction.duration_seconds := 0 |}.

Definition glance_pasta : Interaction.t :=
  {| Interaction.interaction_id := "inter_0001";
     Interaction.user_id := "user_000"; Interaction.venue_id := "ven_004";
     Interaction.interaction_type := VIEW;
     Interaction.duration_seconds := 10 |}.

Definition user_000 : User.t :=
  mk_user "user_000" (40.7128, -74.0060) ["Italian"; "hiking"] [].
Definition user_001 : User.t :=
  mk_user "user_001" (40.7580, -73.9855) ["hiking"] [].
Definition user_003 : User.t :=
  mk_user "user_003" (40.7128, -74.0060) ["Italian"; "hiking"] [].

(** Three users (there is no [user_002]), one venue, and two interactions
    of [user_000] with it. *)
Definition demo_db : LunaDatabase :=
  {| users := [ user_000; user_001; user_003 ];
     venues := [ pasta_perfetto ];
     interactions := [ visit_pasta; glance_pasta ];
     bookings := [] |}.

Definition demo_engine : RecommendationEngine := init demo_db.

(** The profile of [user_000] in [demo_db]: one visit and one ten-second
    view of a restaurant. *)
Definition demo_profile : Profile.t :=
  {| Profile.user_id := "user_000";
     Profile.location := (40.7128, -74.0060);
     Profile.interests := ["Italian"; "hiking"];
     Profile.category_scores :=
       category_score
         <$> {[ "Restaurant" :=
                  {| views := 1; likes := 0; saves := 0; visits := 1 |} ]};
     Profile.total_engagement := 2;
     Profile.avg_view_time := IZR 10 / INR 1 |}.

Definition book_pasta : Booking.t :=
  {| Booking.booking_id := "BOOK_1"; Booking.user_id := "user_000";
     Booking.venue_id := "ven_004"; Booking.party_size := 2;
     Booking.status := "confirmed" |}.

(** [demo_db] after [user_000] has booked the one venue of the catalog. *)
Definition booked_db : LunaDatabase :=
  {| users := users demo_db; venues := venues demo_db;
     interactions := interactions demo_db; bookings := [ book_pasta ] |}.

Definition booked_engine : RecommendationEngine := init booked_db.

(** [demo_engine] after a training run whose gate lets the single sample
    of [demo_db] through. *)
Definition trained_engine : RecommendationEngine :=
  match train_ranker_from_interactions demo_engine 1 with
  | Ok self' => self'
  | Raise _ => demo_engine
  end.

(** The profile of a user without interests and without interactions. *)
Definition newcomer (id : string) (loc : Coordinate) : Profile.t :=
  {| Profile.user_id := id; Profile.location := loc;
     Profile.interests := []; Profile.category_scores := ∅;
     Profile.total_engagement := 0; Profile.avg_view_time := 0 |}.


(** * The rest of the engine and its callers *)

(** ** Counting the interaction log

    What [build_user_profile] accumulates, written as counts over the log
    instead of a loop. *)

(** The interaction is of [kind] and its venue is stored with category
    value [c]. *)
Definition hits_category (d : LunaDatabase) (c : string) (kind : InteractionType)
    (i : Interaction.t) : Prop :=
  Interaction.interaction_type i = kind
  /\ (fun v => value (Venue.category v)) <$> get_venue d (Interaction.venue_id i)
     = Some c.

Definition hits (d : LunaDatabase) (c : string) (kind : InteractionType)
    (l : list Interaction.t) : nat :=
  length (filter (hits_category d c kind) l).

Definition tally (d : LunaDatabase) (c : string) (l : list Interaction.t)
  : Metrics :=
  {| views := hits d c VIEW l; likes := hits d c LIKE l;
     saves := hits d c SAVE l; visits := hits d c VISIT l |}.

#[global] Instance Metrics_eq_dec : EqDecision Metrics.
Proof. solve_decision. Defined.

(** A VIEW of a stored venue. *)
Definition timed_view (d : LunaDatabase) (i : Interaction.t) : Prop :=
  Interaction.interaction_type i = VIEW
  /\ is_Some (get_venue d (Interaction.venue_id i)).

(** The seconds of all VIEWs of stored venues. *)
Definition view_seconds (d : LunaDatabase) (l : list Interaction.t) : Z :=
  foldr Z.add 0%Z (Interaction.duration_seconds <$> filter (timed_view d) l).

(** [demo_db] with the two interactions in the opposite order. *)
Definition reordered_db : LunaDatabase :=
  {| users := users demo_db; venues := venues demo_db;
     interactions := [ glance_pasta; visit_pasta ];
     bookings := bookings demo_db |}.

(** ** The heuristic score of one venue

    [final_score] of [recommend_venues] as a function of the profile and the
    venue. *)
Definition heuristic_score (p : Profile.t) (v : Venue.t) : R :=
  Rmin 1 (np_sum (np_mul (get_venue_features v p) weights)
          + interest_boost_of (Profile.interests p) v
          + default 0 (Profile.category_scores p !! value (Venue.category v))
            * 0.1).



(** One user without interests or interactions, and one venue. *)
Definition cold_db : LunaDatabase :=
  {| users := [ mk_user "user_000" (40.7580, -73.9855) [] [] ];
     venues := [ pasta_perfetto ];
     interactions := [];
     bookings := [] |}.

(** A training label. *)
Definition binary_label (x : R) : Prop := x = 0 \/ x = 1.

(** A second profile with the location, interests and categories of
    [demo_profile]. *)
Definition demo_twin : Profile.t :=
  {| Profile.user_id := "user_003";
     Profile.location := (40.7128, -74.0060);
     Profile.interests := ["hiking"; "Italian"; "hiking"];
     Profile.category_scores := {[ "Restaurant" := 0.3 ]};
     Profile.total_engagement := 1;
     Profile.avg_view_time := 20 |}.

Definition user_002 : User.t :=
  mk_user "user_002" (40.7580, -73.9855) ["hiking"] [].

(** [demo_db] in which [user_000] has blocked [user_001]. *)
Definition blocking_db : LunaDatabase :=
  {| users := [ mk_user "user_000" (40.7128, -74.0060) ["hiking"] ["user_001"];
                user_001;
                user_002 ];
     venues := venues demo_db;
     interactions := interactions demo_db;
     bookings := [] |}.

(** Two users whose identifiers do not start the numbering at zero. *)
Definition late_db : LunaDatabase :=
  {| users := [ user_001; user_003 ];
     venues := venues demo_db;
     interactions := [];
     bookings := [] |}.

(** ** [recommend_groups] *)

(** The [Group] dataclass, without its timestamps ([created_at] and the
    dates of [planned_venues]). *)
Module Group.
Record t := mk {
  group_id : string;
  name : string;
  description : string;
  members : list string;
  creator_id : string;
  venue_preferences : list VenueCategory
}.
End Group.

(** The score that the loop of [recommend_groups] gives a group. *)
Definition group_score (user_profile : Profile.t) (group : Group.t) : R :=
  let preference_overlap :=
    match Group.venue_preferences group with
    | [] => 0.5
    | _ :: _ =>
        INR (size (dom (Profile.category_scores user_profile)
                   ∩ (list_to_set (value <$> Group.venue_preferences group)
                        : gset string)))
        / INR (length (Group.venue_preferences group))
    end in
  let size_score := Rmin 1 (INR (length (Group.members group)) / 10) in
  preference_overlap * 0.6 + size_score * 0.4.

(** [recommend_groups]; [all_groups] is the list that
    [self.db.get_user_groups(user_id)] returns. *)
Definition recommend_groups (self : RecommendationEngine) (user_id : string)
    (limit : Z) (all_groups : list Group.t) : result (list (Group.t * R)) :=
  user_profile ← build_user_profile self user_id;
  let scored_groups :=
    (fun group => (group, group_score user_profile group))
      <$> filter (fun group => user_id ∉ Group.members group) all_groups in
  Ok (slice_to limit (sort_desc snd scored_groups)).

Definition foodies : Group.t :=
  {| Group.group_id := "group_00"; Group.name := "NYC Foodies";
     Group.description := "A group of nyc foodies";
     Group.members := ["user_001"; "user_003"];
     Group.creator_id := "user_000";
     Group.venue_preferences := [RESTAURANT; CAFE] |}.

Definition hikers : Group.t :=
  {| Group.group_id := "group_01"; Group.name := "Hiking Enthusiasts";
     Group.description := "A group of hiking enthusiasts";
     Group.members := ["user_000"; "user_001"];
     Group.creator_id := "user_000";
     Group.venue_preferences := [HIKING] |}.

(** ** Writing to the database *)

(** The members of the two enumerations and the look-up by value that
    [VenueCategory(row[2])] and [InteractionType(row[3])] perform ([None]:
    [ValueError]). *)
Definition all_categories : list VenueCategory :=
  [CAFE; RESTAURANT; NIGHTLIFE; HIKING; ART; MOVIE; PARK; BEACH; SHOPPING; GYM].

Definition VenueCategory_of_value (s : string) : option VenueCategory :=
  head (filter (fun c => value c = s) all_categories).

Definition interaction_value (t : InteractionType) : string :=
  match t with
  | VIEW => "view"
  | LIKE => "like"
  | COMMENT => "comment"
  | SAVE => "save"
  | CLICK => "click"
  | VISIT => "visit"
  end.

Definition all_interaction_types : list InteractionType :=
  [VIEW; LIKE; COMMENT; SAVE; CLICK; VISIT].

Definition InteractionType_of_value (s : string) : option InteractionType :=
  head (filter (fun t => interaction_value t = s) all_interaction_types).

(** A stored row that [INSERT OR REPLACE] of [u] deletes: it has the
    primary key of [u] or one of its two [UNIQUE] columns. *)
Definition conflicts (u v : User.t) : Prop :=
  User.user_id v = User.user_id u
  \/ User.username v = User.username u
  \/ User.email v = User.email u.

#[global] Instance conflicts_dec (u v : User.t) : Decision (conflicts u v).
Proof. unfold conflicts. apply _. Defined.

(** [insert_user]: the conflicting rows go, the new row is last. *)
Definition insert_user (d : LunaDatabase) (user : User.t) : LunaDatabase :=
  {| users := filter (fun v => ~ conflicts user v) (users d) ++ [user];
     venues := venues d;
     interactions := interactions d;
     bookings := bookings d |}.


(** The key constraints of the table [users]. *)
Definition users_unique (d : LunaDatabase) : Prop :=
  NoDup (User.user_id <$> users d)
  /\ NoDup (User.username <$> users d)
  /\ NoDup (User.email <$> users d).

(** A new account that reuses the username of [user_001]. *)
Definition impostor : User.t :=
  {| User.user_id := "user_009"; User.username := "user_001";
     User.email := "impostor@example.com";
     User.location := (40.7580, -73.9855); User.bio := "";
     User.avatar_url := ""; User.verified := false; User.interests := [];
     User.saved_venues := []; User.bookings := []; User.friends := [];
     User.blocked_users := [] |}.

(** ** The agent of [luna_agent.py], where it calls the engine *)

(** [any(k in text for k in keys)] *)
Definition any_in (keys : list string) (text : string) : bool :=
  existsb (fun k => contains k text) keys.

(** The vibe filter of [generate_itinerary]. *)
Definition itinerary_filter (vibe : string)
    (recommendations : list (Venue.t * R)) : list Venue.t :=
  if decide (vibe = "romantic") then
    (filter (fun r => any_in ["cafe"; "rooftop"; "intimate"]
                        (lower (Venue.name r.1)) = true) recommendations).*1
  else if decide (vibe = "adventure") then
    (filter (fun r => any_in ["hiking"; "beach"; "nightlife"]
                        (lower (value (Venue.category r.1))) = true)
            recommendations).*1
  else if decide (vibe = "calm") then
    (filter (fun r => any_in ["cafe"; "park"; "art"]
                        (lower (value (Venue.category r.1))) = true)
            recommendations).*1
  else recommendations.*1.

(** [f"{n:02d}"] for [n >= 0] *)
Definition format_02d (n : nat) : string :=
  let digits := NilEmpty.string_of_uint (Nat.to_uint n) in
  zeros (2 - String.length digits) ++ digits.

(** One stop of the itinerary; the [address] of the venue, a display field,
    is left out as in [Venue]. *)
Record ItineraryItem := {
  it_time : string;
  it_venue : string;
  it_venue_id : string;
  it_category : string;
  it_duration_hours : Z
}.

Record Itinerary := {
  itinerary : list ItineraryItem;
  total_duration_hours : Z;
  recommendation_reasoning : Reasoning
}.

Definition itinerary_item (i : nat) (venue : Venue.t) : ItineraryItem :=
  let start_time := 18%nat in
  {| it_time := format_02d ((start_time + i * 2) mod 24) ++ ":00";
     it_venue := Venue.name venue;
     it_venue_id := Venue.venue_id venue;
     it_category := value (Venue.category venue);
     it_duration_hours := 2 |}.

Definition generate_itinerary (rec_engine : RecommendationEngine)
    (user_id : string) (num_venues : Z) (vibe : string) : result Itinerary :=
  rr ← recommend_venues rec_engine user_id (num_venues * 2) false;
  let '(recommendations, reasoning) := rr in
  let filtered := itinerary_filter vibe recommendations in
  let selected := slice_to num_venues filtered in
  Ok {| itinerary := imap itinerary_item selected;
        total_duration_hours := num_venues * 2;
        recommendation_reasoning := reasoning |}.

(** The rule-based fall-back of [parse_user_intent]. *)
Record Intent := {
  action : string;
  vibe_parameter : option string
}.

Definition rule_based_intent (user_message : string) : Intent :=
  let message := lower user_message in
  let action :=
    if any_in ["plan"; "organize"; "create"; "schedule"] message then "plan"
    else if any_in ["recommend"; "suggest"; "find"; "discover"] message
    then "recommend"
    else if any_in ["book"; "reserve"] message then "book"
    else "query" in
  let vibe0 : option string := None in
  let vibe1 := if contains "romantic" message || contains "date" message
               then Some "romantic" else vibe0 in
  let vibe2 := if contains "adventure" message then Some "adventure" else vibe1 in
  let vibe3 := if contains "quiet" message || contains "calm" message
               then Some "calm" else vibe2 in
  {| action := action; vibe_parameter := vibe3 |}.

(** [analyze_group_chat] after its call of the language model.  The four
    parameters [group_vibe], [cuisine_pref], [budget_pref] and [mood_score]
    are the values of the variables of these names when step 3 begins: the
    defaults [mixed], [None], [medium] and 60 without a model. *)
Record GroupAnalysis := {
  ga_vibe : string;
  ga_cuisine : string;
  ga_budget : string;
  ga_mood : Z;
  ga_recommendations : list (Venue.t * R)
}.

(** [not cuisine_pref] *)
Definition falsy (s : option string) : bool :=
  match s with
  | None => true
  | Some s' => bool_decide (s' = "")
  end.

Definition newline : string := String (ascii_of_nat 10) "".

(** ["\n".join(...)] *)
Fixpoint join (sep : string) (parts : list string) : string :=
  match parts with
  | [] => ""
  | [p] => p
  | p :: rest => p ++ sep ++ join sep rest
  end.

Definition cuisine_filter (cuisine_pref : string)
    (recs : list (Venue.t * R)) : list (Venue.t * R) :=
  if decide (cuisine_pref = "italian") then
    filter (fun r => contains "ital" (lower (Venue.name r.1))
                     || contains "ital" (lower (Venue.description r.1)) = true)
           recs
  else if decide (cuisine_pref = "japanese") then
    filter (fun r => contains "japan" (lower (Venue.description r.1))
                     || contains "sushi" (lower (Venue.name r.1)) = true)
           recs
  else if decide (cuisine_pref = "indian") then
    filter (fun r => contains "indian" (lower (Venue.description r.1)) = true)
           recs
  else recs.

Definition group_vibe_filter (group_vibe : string)
    (recs : list (Venue.t * R)) : list (Venue.t * R) :=
  if decide (group_vibe = "romantic") then
    filter (fun r => contains "cafe" (lower (Venue.name r.1))
                     || contains "rooftop" (lower (Venue.name r.1)) = true)
           recs
  else if decide (group_vibe = "adventure") then
    filter (fun r => lower (value (Venue.category r.1))
                     ∈ ["hiking"; "nightlife"]) recs
  else if decide (group_vibe = "calm") then
    filter (fun r => lower (value (Venue.category r.1))
                     ∈ ["park"; "art"; "cafe"]) recs
  else if decide (group_vibe = "party") then
    filter (fun r => lower (value (Venue.category r.1)) ∈ ["nightlife"]) recs
  else recs.

Definition analyze_group_chat (rec_engine : RecommendationEngine)
    (group_messages : list string) (user_id : string)
    (group_vibe : string) (cuisine_pref : option string)
    (budget_pref : string) (mood_score : Z) : result (option GroupAnalysis) :=
  match group_messages with
  | [] => Ok None (* {"message": ..., "recommendations": []} *)
  | _ :: _ =>
      let chat_text := join newline ((fun msg => "- " ++ msg) <$> group_messages) in
      let text_lower := lower chat_text in
      let cuisine1 :=
        if contains "italian" text_lower || contains "pasta" text_lower
           || contains "pizza" text_lower
        then Some "italian" else cuisine_pref in
      let cuisine2 :=
        if contains "sushi" text_lower then Some "japanese" else cuisine1 in
      let cuisine3 :=
        if contains "spicy" text_lower && falsy cuisine2
        then Some "indian" else cuisine2 in
      let cuisine4 := if falsy cuisine3 then "any" else default "" cuisine3 in
      let budget1 :=
        if contains "cheap" text_lower || contains "budget" text_lower
        then "low" else budget_pref in
      let budget2 :=
        if contains "expensive" text_lower || contains "premium" text_lower
        then "high" else budget1 in
      rr ← recommend_venues rec_engine user_id 20 false;
      let recs := rr.1 in
      let cuisine_filtered := cuisine_filter cuisine4 recs in
      let vibe_filtered := group_vibe_filter group_vibe cuisine_filtered in
      let vibe_filtered1 :=
        match vibe_filtered with [] => cuisine_filtered | _ => vibe_filtered end in
      let vibe_filtered2 :=
        match vibe_filtered1 with [] => recs | _ => vibe_filtered1 end in
      let final_recs := slice_to 3 vibe_filtered2 in
      Ok (Some {| ga_vibe := group_vibe; ga_cuisine := cuisine4;
                  ga_budget := budget2; ga_mood := mood_score;
                  ga_recommendations := final_recs |})
  end.
(** * Properties *)

(** ** SpatialMath *)

Lemma radians_sub (x y : R) : radians (x - y) = radians x - radians y.
Proof. unfold radians. lra. Qed.

Lemma sin_half_sqr (x : R) : sin (x / 2) ^ 2 = (1 - cos x) / 2.
Proof.
  replace x with (2 * (x / 2)) at 2 by lra.
  rewrite cos_2a_sin. lra.
Qed.

Lemma sin_half_sqr_opp (x : R) : sin (- x / 2) ^ 2 = sin (x / 2) ^ 2.
Proof.
  replace (- x / 2) with (- (x / 2)) by lra.
  rewrite sin_neg. ring.
Qed.

Lemma haversine_a_sym (loc1 loc2 : Coordinate) :
  haversine_a loc1 loc2 = haversine_a loc2 loc1.
Proof.
  destruct loc1 as [lat1 lon1], loc2 as [lat2 lon2]. unfold haversine_a.
  replace (radians (lat1 - lat2)) with (- radians (lat2 - lat1))
    by (unfold radians; lra).
  replace (radians (lon1 - lon2)) with (- radians (lon2 - lon1))
    by (unfold radians; lra).
  rewrite !sin_half_sqr_opp. ring.
Qed.

(** The argument of [math.sqrt] is never negative and that of [math.asin]
    never above one: neither call can raise a domain error. *)
Lemma haversine_a_range (loc1 loc2 : Coordinate) :
  0 <= haversine_a loc1 loc2 <= 1.
Proof.
  destruct loc1 as [lat1 lon1], loc2 as [lat2 lon2]. unfold haversine_a.
  rewrite !sin_half_sqr, radians_sub, cos_minus.
  set (t := (1 - cos (radians (lon2 - lon1))) / 2).
  assert (Ht : 0 <= t <= 1)
    by (pose proof (COS_bound (radians (lon2 - lon1))); unfold t; lra).
  pose proof (COS_bound (radians lat2 - radians lat1)) as Hm.
  pose proof (COS_bound (radians lat2 + radians lat1)) as Hp.
  rewrite cos_minus in Hm. rewrite cos_plus in Hp.
  set (c1 := cos (radians lat1)) in *. set (c2 := cos (radians lat2)) in *.
  set (s1 := sin (radians lat1)) in *. set (s2 := sin (radians lat2)) in *.
  split; nra.
Qed.

Lemma asin_nonneg (x : R) : 0 <= x -> 0 <= asin x.
Proof.
  intros Hx. unfold asin.
  pose proof PI_RGT_0 as Hpi.
  destruct (Rle_dec x (-1)); [lra|].
  destruct (Rle_dec 1 x); [lra|].
  assert (Hs : 0 < sqrt (1 - x²)).
  { apply sqrt_lt_R0. unfold Rsqr. nra. }
  assert (Hq : 0 <= x / sqrt (1 - x²)).
  { apply Rmult_le_pos; [exact Hx|]. left. now apply Rinv_0_lt_compat. }
  destruct Hq as [Hq | Hq].
  - left. rewrite <- atan_0. now apply atan_increasing.
  - rewrite <- Hq, atan_0. lra.
Qed.

Lemma calculate_distance_nonneg (loc1 loc2 : Coordinate) :
  0 <= calculate_distance loc1 loc2.
Proof.
  unfold calculate_distance.
  pose proof (asin_nonneg (sqrt (haversine_a loc1 loc2)) (sqrt_pos _)). lra.
Qed.

Lemma calculate_distance_sym (loc1 loc2 : Coordinate) :
  calculate_distance loc1 loc2 = calculate_distance loc2 loc1.
Proof. unfold calculate_distance. now rewrite haversine_a_sym. Qed.

Lemma calculate_distance_same (loc : Coordinate) :
  calculate_distance loc loc = 0.
Proof.
  destruct loc as [lat lon]. unfold calculate_distance, haversine_a.
  replace (radians (lat - lat)) with 0 by (unfold radians; lra).
  replace (radians (lon - lon)) with 0 by (unfold radians; lra).
  replace (0 / 2) with 0 by lra. rewrite sin_0.
  replace (0 ^ 2 + cos (radians lat) * cos (radians lat) * 0 ^ 2) with 0 by ring.
  rewrite sqrt_0, asin_0. ring.
Qed.

(** ** The definitions on small inputs *)

Example candidate_id_7 : candidate_id 7 = "user_007".
Proof. reflexivity. Qed.

Example candidate_id_1000 : candidate_id 1000 = "user_1000".
Proof. reflexivity. Qed.

Example slice_to_10 : slice_to 10 [1; 2; 3]%nat = [1; 2; 3]%nat.
Proof. reflexivity. Qed.

Example slice_to_minus_1 : slice_to (-1) [1; 2; 3]%nat = [1; 2]%nat.
Proof. reflexivity. Qed.

Example lower_pasta : lower "Pasta Perfetto" = "pasta perfetto".
Proof. reflexivity. Qed.

Example italian_matches_pasta : interest_matches "Italian" pasta_perfetto = true.
Proof. reflexivity. Qed.

Example hiking_misses_pasta : interest_matches "hiking" pasta_perfetto = false.
Proof. reflexivity. Qed.

Example demo_interest_boost :
  interest_boost_of ["Italian"; "hiking"] pasta_perfetto = 0.15.
Proof.
  unfold interest_boost_of. cbn [fold_left].
  rewrite italian_matches_pasta, hiking_misses_pasta. lra.
Qed.

(** Equal keys keep their order, as with [reverse=True] in Python. *)
Example sort_desc_stable :
  sort_desc snd [("a", 1); ("b", 2); ("c", 1)] = [("b", 2); ("a", 1); ("c", 1)].
Proof.
  unfold sort_desc. cbn [foldr].
  repeat (cbn [insert_desc snd]; destruct (Rlt_dec _ _); try lra).
  reflexivity.
Qed.

Example dict_set_keeps_position :
  dict_set [("a", 1%nat); ("b", 2%nat)] "a" 3%nat = [("a", 3%nat); ("b", 2%nat)].
Proof. reflexivity. Qed.

(** ** Lists, sorting and slicing *)

Lemma insert_desc_perm {A} (key : A -> R) (x : A) (l : list A) :
  insert_desc key x l ≡ₚ x :: l.
Proof.
  induction l as [|y l IH]; simpl; [done|].
  destruct (Rlt_dec (key x) (key y)); [|done].
  rewrite IH. apply Permutation_swap.
Qed.

Lemma sort_desc_perm {A} (key : A -> R) (l : list A) :
  sort_desc key l ≡ₚ l.
Proof.
  induction l as [|x l IH]; simpl; [done|].
  unfold sort_desc in *. simpl. now rewrite insert_desc_perm, IH.
Qed.

Lemma elem_of_sort_desc {A} (key : A -> R) (l : list A) (x : A) :
  x ∈ sort_desc key l <-> x ∈ l.
Proof. now rewrite sort_desc_perm. Qed.

Lemma insert_desc_sorted {A} (key : A -> R) (x : A) (l : list A) :
  StronglySorted (fun a b => key b <= key a) l ->
  StronglySorted (fun a b => key b <= key a) (insert_desc key x l).
Proof.
  induction 1 as [|y l Hl IH Hy]; cbn [insert_desc]; [repeat constructor|].
  destruct (Rlt_dec (key x) (key y)) as [Hlt|Hge].
  - constructor; [exact IH|]. rewrite insert_desc_perm.
    constructor; [lra|exact Hy].
  - constructor; [now constructor|].
    constructor; [lra|]. eapply Forall_impl; [exact Hy|].
    intros z Hz. cbv beta in Hz. lra.
Qed.

(** [sort_desc] sorts: scores never increase along the result. *)
Lemma sort_desc_sorted {A} (key : A -> R) (l : list A) :
  StronglySorted (fun a b => key b <= key a) (sort_desc key l).
Proof.
  induction l as [|x l IH]; [constructor|].
  apply insert_desc_sorted, IH.
Qed.

Lemma length_slice_to {A} (limit : Z) (l : list A) :
  (0 <= limit)%Z -> (Z.of_nat (length (slice_to limit l)) <= limit)%Z.
Proof.
  intros H. unfold slice_to.
  destruct (Z.leb_spec 0 limit); [|lia]. rewrite length_take. lia.
Qed.

Lemma elem_of_slice_to {A} (limit : Z) (l : list A) (x : A) :
  x ∈ slice_to limit l -> x ∈ l.
Proof.
  unfold slice_to. destruct (0 <=? limit)%Z; intros H;
    apply elem_of_take in H as (i & Hi & _); eauto using list_elem_of_lookup_2.
Qed.

(** ** ProfileBuilder *)

Lemma category_score_nonneg (m : Metrics) : 0 <= category_score m.
Proof.
  unfold category_score.
  pose proof (pos_INR (views m)). pose proof (pos_INR (likes m)).
  pose proof (pos_INR (saves m)). pose proof (pos_INR (visits m)). lra.
Qed.

Lemma build_user_profile_Some (self : RecommendationEngine) (uid : string)
    (u : User.t) :
  get_user (db self) uid = Some u ->
  exists p, build_user_profile self uid = Ok p.
Proof.
  intros Hu. unfold build_user_profile. rewrite Hu.
  destruct (fold_left _ _ _). eauto.
Qed.

Lemma build_user_profile_None (self : RecommendationEngine) (uid : string) :
  get_user (db self) uid = None ->
  build_user_profile self uid = Raise (AttributeError "location").
Proof.
  intros Hu. unfold build_user_profile. rewrite Hu.
  now destruct (fold_left _ _ _).
Qed.

Lemma build_user_profile_nonneg (self : RecommendationEngine) (uid : string)
    (p : Profile.t) :
  build_user_profile self uid = Ok p -> nonneg_scores p.
Proof.
  unfold build_user_profile. destruct (fold_left _ _ _) as [ce tvt].
  destruct (get_user _ _); [|discriminate].
  intros [= <-] k x. simpl. rewrite lookup_fmap.
  destruct (ce !! k) as [m|]; simpl; [|discriminate].
  intros [= <-]. apply category_score_nonneg.
Qed.

(** ** FeatureExtractor *)

Lemma distance_score_range (d k : R) :
  0 <= d -> 0 < k -> 0 <= Rmax 0 (1 - d / k) <= 1.
Proof.
  intros Hd Hk. split; [apply Rmax_l|].
  apply Rmax_lub; [lra|].
  assert (0 <= d / k) by (apply Rmult_le_pos; [lra|left; now apply Rinv_0_lt_compat]).
  lra.
Qed.

Lemma category_feature_cases (v : Venue.t) (p : Profile.t) :
  let key := value (Venue.category v) in
  match Profile.category_scores p !! key with
  | Some s => nth 3 (get_venue_features v p) 0 = s
  | None => nth 3 (get_venue_features v p) 0 = 0.05
  end.
Proof.
  intros key. unfold get_venue_features. cbn [nth]. fold key.
  destruct (Profile.category_scores p !! key) as [s|] eqn:E;
    destruct (decide _) as [Hs|Hs]; cbn [from_option]; unfold Datatypes.id;
    try lra.
  - exfalso. apply Hs. eauto.
  - destruct Hs as [? ?]. discriminate.
Qed.

Lemma category_feature_nonneg (v : Venue.t) (p : Profile.t) :
  nonneg_scores p -> 0 <= nth 3 (get_venue_features v p) 0.
Proof.
  intros Hp. pose proof (category_feature_cases v p) as H. cbv zeta in H.
  destruct (Profile.category_scores p !! value (Venue.category v)) eqn:E.
  - rewrite H. eauto.
  - rewrite H. lra.
Qed.

Lemma rating_feature_range (v : Venue.t) (p : Profile.t) :
  valid_venue v -> 0 <= nth 0 (get_venue_features v p) 0 <= 1.
Proof. intros (Hr & _). unfold get_venue_features. cbn [nth]. lra. Qed.

Lemma distance_feature_range (v : Venue.t) (p : Profile.t) :
  0 <= nth 1 (get_venue_features v p) 0 <= 1.
Proof.
  unfold get_venue_features. cbn [nth].
  apply distance_score_range; [apply calculate_distance_nonneg|lra].
Qed.

(** At the user's own coordinates the distance feature is 1. *)
Lemma distance_feature_same_place (v : Venue.t) (p : Profile.t) :
  Profile.location p = Venue.location v ->
  nth 1 (get_venue_features v p) 0 = 1.
Proof.
  intros E. unfold get_venue_features. cbn [nth].
  rewrite E, calculate_distance_same, Rmax_right; lra.
Qed.

Lemma trending_feature_range (v : Venue.t) (p : Profile.t) :
  valid_venue v -> 0 <= nth 2 (get_venue_features v p) 0 <= 1.
Proof. intros (_ & Ht & _). unfold get_venue_features. cbn [nth]. lra. Qed.

Lemma capacity_feature_pos (v : Venue.t) (p : Profile.t) :
  valid_venue v -> 0 < nth 4 (get_venue_features v p) 0.
Proof.
  intros (_ & _ & Hc). unfold get_venue_features. cbn [nth].
  assert (0 < IZR (Venue.capacity v)) by (now apply IZR_lt). lra.
Qed.

(** C1 (as amended).  For a venue with rating in [0,5], trending score in
    [0,1] and positive capacity, and a profile whose category scores are
    non-negative, the feature vector has five entries; the rating,
    distance and trending features lie in [0,1]; the category feature is
    the category's score when the profile has one and 0.05 otherwise, so it
    is non-negative but has no upper bound; the capacity feature is
    capacity/1000, which is positive. *)
Theorem get_venue_features_bounds (v : Venue.t) (p : Profile.t) :
  valid_venue v -> nonneg_scores p ->
  let f := get_venue_features v p in
  length f = 5%nat
  /\ 0 <= nth 0 f 0 <= 1
  /\ 0 <= nth 1 f 0 <= 1
  /\ 0 <= nth 2 f 0 <= 1
  /\ 0 <= nth 3 f 0
  /\ nth 3 f 0
     = default 0.05 (Profile.category_scores p !! value (Venue.category v))
  /\ nth 4 f 0 = IZR (Venue.capacity v) / 1000
  /\ 0 < nth 4 f 0.
Proof.
  intros Hv Hp f. subst f.
  split; [reflexivity|].
  split; [now apply rating_feature_range|].
  split; [apply distance_feature_range|].
  split; [now apply trending_feature_range|].
  split; [now apply category_feature_nonneg|].
  split.
  { pose proof (category_feature_cases v p) as H. cbv zeta in H.
    now destruct (Profile.category_scores p !! value (Venue.category v)). }
  split; [reflexivity|now apply capacity_feature_pos].
Qed.

(** ** The demonstration data *)

Lemma demo_profile_built :
  build_user_profile demo_engine "user_000" = Ok demo_profile.
Proof. reflexivity. Qed.

Lemma valid_pasta_perfetto : valid_venue pasta_perfetto.
Proof. unfold valid_venue, pasta_perfetto; simpl. repeat split; try lra; try lia. Qed.

Lemma demo_profile_nonneg : nonneg_scores demo_profile.
Proof. apply (build_user_profile_nonneg demo_engine "user_000"), demo_profile_built. Qed.

Lemma demo_category_feature :
  nth 3 (get_venue_features pasta_perfetto demo_profile) 0 = 2.3.
Proof.
  pose proof (category_feature_cases pasta_perfetto demo_profile) as H.
  cbv zeta in H.
  change (Profile.category_scores demo_profile !! value (Venue.category pasta_perfetto))
    with (Some (category_score {| views := 1; likes := 0; saves := 0; visits := 1 |})) in H.
  rewrite H. unfold category_score. simpl. lra.
Qed.

Lemma get_venue_features_bounds_witness :
  valid_venue pasta_perfetto /\ nonneg_scores demo_profile
  /\ 0 <= nth 1 (get_venue_features pasta_perfetto demo_profile) 0 <= 1.
Proof.
  split; [exact valid_pasta_perfetto|]. split; [exact demo_profile_nonneg|].
  exact (proj1 (proj2 (proj2
    (get_venue_features_bounds pasta_perfetto demo_profile
       valid_pasta_perfetto demo_profile_nonneg)))).
Defined.

(** C1 (counterexample).  The profile that [build_user_profile] returns for
    a user with one visit and one short view of a restaurant gives a valid
    restaurant the category feature 2.3, which is above 1. *)
Lemma category_feature_above_one :
  build_user_profile demo_engine "user_000" = Ok demo_profile
  /\ valid_venue pasta_perfetto
  /\ ~ (nth 3 (get_venue_features pasta_perfetto demo_profile) 0 <= 1).
Proof.
  split; [exact demo_profile_built|]. split; [exact valid_pasta_perfetto|].
  rewrite demo_category_feature. lra.
Qed.

(** ** HybridScorer *)

Lemma base_score_eq (v : Venue.t) (p : Profile.t) :
  let f := get_venue_features v p in
  np_sum (np_mul f weights)
  = nth 0 f 0 * 0.25 + nth 1 f 0 * 0.25 + nth 2 f 0 * 0.2
    + nth 3 f 0 * 0.25 + nth 4 f 0 * 0.05.
Proof.
  unfold get_venue_features, np_sum, np_mul, weights.
  cbn [zip_with foldr nth]. lra.
Qed.

Lemma base_score_nonneg (v : Venue.t) (p : Profile.t) :
  valid_venue v -> nonneg_scores p ->
  0 <= np_sum (np_mul (get_venue_features v p) weights).
Proof.
  intros Hv Hp.
  pose proof (rating_feature_range v p Hv) as H0.
  pose proof (distance_feature_range v p) as H1.
  pose proof (trending_feature_range v p Hv) as H2.
  pose proof (category_feature_nonneg v p Hp) as H3.
  pose proof (capacity_feature_pos v p Hv) as H4.
  pose proof (base_score_eq v p) as E. cbv zeta in E. rewrite E. lra.
Qed.

Lemma interest_boost_acc_nonneg (interests : list string) (v : Venue.t) (acc : R) :
  0 <= acc ->
  0 <= fold_left
         (fun interest_boost interest =>
            if interest_matches interest v then interest_boost + 0.15
            else interest_boost)
         interests acc.
Proof.
  revert acc. induction interests as [|i l IH]; intros acc Hacc; simpl; [done|].
  apply IH. destruct (interest_matches i v); lra.
Qed.

Lemma interest_boost_nonneg (interests : list string) (v : Venue.t) :
  0 <= interest_boost_of interests v.
Proof. apply interest_boost_acc_nonneg. lra. Qed.

Lemma category_boost_nonneg (p : Profile.t) (k : string) :
  nonneg_scores p -> 0 <= default 0 (Profile.category_scores p !! k) * 0.1.
Proof.
  intros Hp. destruct (Profile.category_scores p !! k) as [x|] eqn:E;
    cbn [from_option]; unfold Datatypes.id; [|lra].
  specialize (Hp k x E). lra.
Qed.

(** The heuristic score of section 4.4, written out. *)
Lemma score_venue_final (self : RecommendationEngine) (uid : string)
    (p : Profile.t) (v : Venue.t) :
  let base_score := np_sum (np_mul (get_venue_features v p) weights) in
  let interest_boost := interest_boost_of (Profile.interests p) v in
  let category_boost :=
    default 0 (Profile.category_scores p !! value (Venue.category v)) * 0.1 in
  let final_score := Rmin 1 (base_score + interest_boost + category_boost) in
  (score_venue self uid p v).1 = (v, final_score, interest_boost, category_boost)
  /\ rd_final_score (score_venue self uid p v).2 = final_score.
Proof.
  unfold score_venue. destruct (decide _); split; reflexivity.
Qed.

Lemma final_score_range (v : Venue.t) (p : Profile.t) :
  valid_venue v -> nonneg_scores p ->
  0 <= Rmin 1 (np_sum (np_mul (get_venue_features v p) weights)
               + interest_boost_of (Profile.interests p) v
               + default 0 (Profile.category_scores p
                            !! value (Venue.category v)) * 0.1) <= 1.
Proof.
  intros Hv Hp.
  pose proof (base_score_nonneg v p Hv Hp).
  pose proof (interest_boost_nonneg (Profile.interests p) v).
  pose proof (category_boost_nonneg p (value (Venue.category v)) Hp).
  split; [apply Rmin_glb; lra|apply Rmin_l].
Qed.

(** C4.  Over a catalog of valid venues, [recommend_venues] returns for
    every stored user, and whenever it returns, every pair [(venue, score)]
    of the ranked list is a venue of the catalog with
    [score = min(1.0, base_score + interest_boost + category_boost)] computed
    from the user's profile, and [0 <= score <= 1]; the [final_score] of every
    entry of the reasoning lies in the same interval. *)
Theorem recommend_venues_final_score_range (self : RecommendationEngine)
    (user_id : string) (limit : Z) (show_reasoning : bool) :
  (forall v, v ∈ get_all_venues (db self) -> valid_venue v) ->
  (is_Some (get_user (db self) user_id) ->
   exists recs reasoning,
     recommend_venues self user_id limit show_reasoning = Ok (recs, reasoning))
  /\ forall recs reasoning,
       recommend_venues self user_id limit show_reasoning
         = Ok (recs, reasoning) ->
       exists profile,
         build_user_profile self user_id = Ok profile
         /\ (forall v s, (v, s) ∈ recs ->
               v ∈ get_all_venues (db self)
               /\ s = Rmin 1 (np_sum (np_mul (get_venue_features v profile)
                                             weights)
                              + interest_boost_of (Profile.interests profile) v
                              + default 0 (Profile.category_scores profile
                                           !! value (Venue.category v)) * 0.1)
               /\ 0 <= s <= 1)
         /\ (forall d, d ∈ details reasoning -> 0 <= rd_final_score d <= 1).
Proof.
  intros Hvalid. split.
  { intros [u Hu].
    destruct (build_user_profile_Some self user_id u Hu) as [p Hp].
    unfold recommend_venues. rewrite Hp. cbn [mbind result_bind]. eauto. }
  intros recs reasoning. unfold recommend_venues.
  destruct (build_user_profile self user_id) as [p|e] eqn:Hp; [|discriminate].
  pose proof (build_user_profile_nonneg self user_id p Hp) as Hnn.
  cbn [mbind result_bind]. intros [= <- <-].
  exists p. split; [reflexivity|]. split.
  - intros v s Hin.
    apply list_elem_of_fmap in Hin as (x & Hx & Hin).
    apply elem_of_slice_to, elem_of_sort_desc in Hin.
    apply list_elem_of_fmap in Hin as (y & -> & Hin).
    apply list_elem_of_fmap in Hin as (v' & -> & Hv').
    destruct (score_venue_final self user_id p v') as [E _]. cbv zeta in E.
    rewrite E in Hx. cbn [fst snd] in Hx. injection Hx as -> ->.
    split; [exact Hv'|]. split; [reflexivity|].
    apply final_score_range; auto.
  - intros d Hin. cbn [details] in Hin.
    apply elem_of_slice_to, elem_of_sort_desc in Hin.
    apply list_elem_of_fmap in Hin as (y & -> & Hin).
    apply list_elem_of_fmap in Hin as (v' & -> & Hv').
    destruct (score_venue_final self user_id p v') as [_ E]. cbv zeta in E.
    rewrite E. apply final_score_range; auto.
Qed.

Lemma demo_venues_valid (v : Venue.t) :
  v ∈ get_all_venues (db demo_engine) -> valid_venue v.
Proof.
  intros Hin. apply list_elem_of_singleton in Hin as ->.
  exact valid_pasta_perfetto.
Qed.

Lemma recommend_venues_final_score_range_witness :
  (forall v, v ∈ get_all_venues (db demo_engine) -> valid_venue v)
  /\ exists recs reasoning,
       recommend_venues demo_engine "user_000" 10 true = Ok (recs, reasoning)
       /\ (forall v s, (v, s) ∈ recs -> 0 <= s <= 1).
Proof.
  split; [exact demo_venues_valid|].
  destruct (recommend_venues_final_score_range demo_engine "user_000" 10 true
              demo_venues_valid) as [Hret Hrange].
  destruct Hret as (recs & reasoning & Hrec); [now exists user_000|].
  exists recs, reasoning. split; [exact Hrec|].
  destruct (Hrange recs reasoning Hrec) as (p & _ & Hrecs & _).
  intros v s Hin. apply (Hrecs v s Hin).
Defined.

Lemma build_user_profile_same_tables (self self' : RecommendationEngine)
    (user_id : string) :
  users (db self) = users (db self') ->
  venues (db self) = venues (db self') ->
  interactions (db self) = interactions (db self') ->
  build_user_profile self user_id = build_user_profile self' user_id.
Proof.
  destruct self as [[us vs ins bs] sc rm ts], self' as [[us' vs' ins' bs'] sc' rm' ts'].
  cbn [db users venues interactions]. intros -> -> ->. reflexivity.
Qed.

Lemma score_venue_same_tables (self self' : RecommendationEngine)
    (user_id : string) (p : Profile.t) (v : Venue.t) :
  score_venue self user_id p v = score_venue self' user_id p v.
Proof. unfold score_venue. do 2 destruct (decide _); reflexivity. Qed.

(** C9.  Two engines whose databases agree on users, venues and
    interactions, and so differ at most in the bookings (and in the trained
    model), give the same result of [recommend_venues]: the same ranked list
    and the same reasoning, or the same exception. *)
Theorem recommend_venues_ignores_bookings (self self' : RecommendationEngine)
    (user_id : string) (limit : Z) (show_reasoning : bool) :
  users (db self) = users (db self') ->
  venues (db self) = venues (db self') ->
  interactions (db self) = interactions (db self') ->
  recommend_venues self user_id limit show_reasoning
  = recommend_venues self' user_id limit show_reasoning.
Proof.
  intros Hu Hv Hi. unfold recommend_venues.
  rewrite (build_user_profile_same_tables self self' user_id Hu Hv Hi).
  destruct (build_user_profile self' user_id) as [p|e]; [|reflexivity].
  cbn [mbind result_bind]. unfold get_all_venues. rewrite Hv.
  assert (E : score_venue self user_id p <$> venues (db self')
              = score_venue self' user_id p <$> venues (db self')).
  { apply list_fmap_ext. intros _ v _. apply score_venue_same_tables. }
  now rewrite E.
Qed.

Lemma recommend_venues_ignores_bookings_witness :
  get_user_bookings (db demo_engine) "user_000" = []
  /\ get_user_bookings (db booked_engine) "user_000" = [ book_pasta ]
  /\ recommend_venues demo_engine "user_000" 10 true
     = recommend_venues booked_engine "user_000" 10 true.
Proof.
  split; [reflexivity|]. split; [reflexivity|].
  exact (recommend_venues_ignores_bookings demo_engine booked_engine
           "user_000" 10 true eq_refl eq_refl eq_refl).
Defined.

(** No entry of [reasoning_details] has a key [ml_score]. *)
Lemma as_dict_no_ml_score (d : ReasoningDetail) :
  dict_get (as_dict d) "ml_score" = None.
Proof. reflexivity. Qed.

Lemma trained_engine_trained :
  train_ranker_from_interactions demo_engine 1 = Ok trained_engine
  /\ is_Some (rank_model trained_engine)
  /\ training_samples trained_engine = Some 1%nat.
Proof. split; [reflexivity|]. split; [eexists|]; reflexivity. Qed.

(** C2 (the code at the failing input).  [trained_engine] holds a fitted
    ranker, [recommend_venues] on it returns a breakdown with one entry per
    scored venue, and no entry has an [ml_score]. *)
Theorem trained_engine_breakdown_lacks_ml_score :
  is_Some (rank_model trained_engine)
  /\ exists recs reasoning,
       recommend_venues trained_engine "user_000" 10 true
         = Ok (recs, reasoning)
       /\ length (details reasoning) = 1%nat
       /\ Forall (fun d => dict_get (as_dict d) "ml_score" = None)
            (details reasoning).
Proof.
  split; [apply trained_engine_trained|].
  eexists _, _. split; [reflexivity|]. split; [reflexivity|].
  apply Forall_forall. intros d _. apply as_dict_no_ml_score.
Qed.

Lemma recommend_venues_None (self : RecommendationEngine) (uid : string)
    (limit : Z) (show_reasoning : bool) :
  get_user (db self) uid = None ->
  recommend_venues self uid limit show_reasoning = Raise (AttributeError "location").
Proof.
  intros Hu. unfold recommend_venues.
  now rewrite (build_user_profile_None self uid Hu).
Qed.

(** C3 (the code at the failing input).  [demo_db] has no user [user_404];
    [build_user_profile] and [recommend_venues] then raise the
    [AttributeError] of reading [location] from [None], which is not the
    missing-entity error [NotFound]. *)
Theorem missing_user_raises_AttributeError :
  get_user (db demo_engine) "user_404" = None
  /\ build_user_profile demo_engine "user_404"
     = Raise (AttributeError "location")
  /\ recommend_venues demo_engine "user_404" 10 true
     = Raise (AttributeError "location")
  /\ forall entity,
       build_user_profile demo_engine "user_404" <> Raise (NotFound entity).
Proof.
  assert (H : get_user (db demo_engine) "user_404" = None) by reflexivity.
  split; [exact H|]. split; [now apply build_user_profile_None|].
  split; [now apply recommend_venues_None|].
  intros entity. rewrite (build_user_profile_None _ _ H). discriminate.
Qed.

(** ** RankerTrainer *)

Lemma assemble_total (self : RecommendationEngine) (user_ids : list string)
    (Xy : list (list R) * list R) :
  (forall uid, uid ∈ user_ids -> is_Some (get_user (db self) uid)) ->
  exists Xy', assemble self user_ids Xy = Ok Xy'.
Proof.
  revert Xy. induction user_ids as [|uid rest IH]; intros Xy Hall; simpl; [eauto|].
  destruct (Hall uid) as [u Hu]; [left|].
  destruct (build_user_profile_Some self uid u Hu) as [p ->].
  cbn [mbind result_bind]. apply IH. intros uid' Hin. apply Hall. now right.
Qed.

Lemma get_user_of_row (d : LunaDatabase) (uid : string) :
  uid ∈ get_all_user_ids d -> is_Some (get_user d uid).
Proof.
  unfold get_all_user_ids, get_user. intros Hin.
  apply list_elem_of_fmap in Hin as (u & -> & Hin).
  destruct (filter _ (users d)) as [|u' l] eqn:E; [|now eexists].
  assert (u ∈ filter (fun u0 => User.user_id u0 = User.user_id u) (users d))
    by (now apply list_elem_of_filter).
  rewrite E in H. now apply not_elem_of_nil in H.
Qed.

(** The training set can always be assembled: no profile of a stored user
    raises. *)
Lemma training_set_total (self : RecommendationEngine) :
  exists Xy, training_set self = Ok Xy.
Proof. apply assemble_total. intros uid. apply get_user_of_row. Qed.

(** C5.  The training set is always assembled without an exception, and
    when it has fewer than [min_samples] samples,
    [train_ranker_from_interactions] returns normally and the engine is
    exactly as before: same ranker (or none), same scaler, same sample
    count. *)
Theorem train_ranker_below_gate (self : RecommendationEngine)
    (min_samples : Z) :
  exists X y,
    training_set self = Ok (X, y)
    /\ ((Z.of_nat (length X) < min_samples)%Z ->
        train_ranker_from_interactions self min_samples = Ok self).
Proof.
  destruct (training_set_total self) as [[X y] Hset]. exists X, y.
  split; [exact Hset|]. intros Hlt.
  unfold training_set in Hset. unfold train_ranker_from_interactions.
  destruct (get_all_user_ids (db self)) as [|uid rest]; [reflexivity|].
  rewrite Hset. cbn [mbind result_bind].
  destruct (Z.ltb_spec (Z.of_nat (length X)) min_samples);
    [reflexivity|exfalso; lia].
Qed.

Lemma train_ranker_below_gate_witness :
  (exists X y, training_set demo_engine = Ok (X, y) /\ length X = 1%nat)
  /\ train_ranker_from_interactions demo_engine 50 = Ok demo_engine.
Proof.
  split; [eexists _, _; split; reflexivity|].
  destruct (train_ranker_below_gate demo_engine 50) as (X & y & Hset & Hgate).
  apply Hgate.
  assert (E : training_set demo_engine
              = Ok ([get_venue_features pasta_perfetto demo_profile],
                    [Rmax (Rmax 0 1) 0])) by reflexivity.
  rewrite E in Hset. injection Hset as <- <-. cbn [length]. lia.
Defined.

Lemma interaction_label_spec (inter : Interaction.t) :
  interaction_label inter
  = spec_label (Interaction.interaction_type inter)
               (Interaction.duration_seconds inter).
Proof.
  unfold interaction_label, spec_label.
  destruct (Interaction.interaction_type inter);
    repeat (destruct (decide _) as [?|?]); try reflexivity;
    try (exfalso; intuition congruence);
    destruct (Z.leb_spec (Interaction.duration_seconds inter) 15);
    try destruct (Z.geb_spec (Interaction.duration_seconds inter) 60);
    try reflexivity; exfalso; intuition lia.
Qed.

Lemma spec_label_nonneg (kind : InteractionType) (d : Z) (x : R) :
  spec_label kind d = Some x -> 0 <= x.
Proof.
  unfold spec_label. repeat (destruct (decide _)); intros [= <-]; lra.
Qed.

Lemma dict_get_set {V} (d : list (string * V)) (k k' : string) (v : V) :
  dict_get (dict_set d k v) k' = if decide (k = k') then Some v else dict_get d k'.
Proof.
  induction d as [|[k0 v0] d IH]; simpl.
  - destruct (decide (k = k')); reflexivity.
  - destruct (decide (k0 = k)) as [->|Hne]; simpl.
    + destruct (decide (k = k')); reflexivity.
    + rewrite IH. destruct (decide (k0 = k')) as [->|]; [|reflexivity].
      now rewrite decide_False by congruence.
Qed.

Lemma omap_cons_list {A B} (f : A -> option B) (x : A) (l : list A) :
  omap f (x :: l) = match f x with Some y => y :: omap f l | None => omap f l end.
Proof. reflexivity. Qed.

Lemma venue_label_fold (interactions : list Interaction.t)
    (acc : list (string * R)) (vid : string) :
  dict_get (fold_left label_step interactions acc) vid
  = fold_left keep_max (labels_for vid interactions) (dict_get acc vid).
Proof.
  revert acc. induction interactions as [|inter l IH]; intros acc; [reflexivity|].
  cbn [fold_left]. rewrite IH. clear IH.
  unfold labels_for at 2. rewrite filter_cons. fold (labels_for vid l).
  unfold label_step. rewrite interaction_label_spec.
  destruct (decide (Interaction.venue_id inter = vid)) as [Hv|Hv].
  - rewrite omap_cons_list. fold (labels_for vid l).
    destruct (spec_label _ _) as [label|]; [|reflexivity].
    cbn [fold_left]. rewrite dict_get_set, decide_True by done.
    now rewrite Hv.
  - fold (labels_for vid l).
    destruct (spec_label _ _) as [label|]; [|reflexivity].
    rewrite dict_get_set. now rewrite decide_False.
Qed.

Lemma keep_max_fold_Some (ls : list R) (a : R) :
  fold_left keep_max ls (Some a) = Some (fold_left Rmax ls a).
Proof. revert a. induction ls as [|x ls IH]; intros a; [reflexivity|]. apply IH. Qed.

Lemma keep_max_fold_None (ls : list R) :
  Forall (fun x => 0 <= x) ls -> fold_left keep_max ls None = maximum ls.
Proof.
  destruct ls as [|x ls]; [reflexivity|]. intros H.
  apply Forall_cons in H as [Hx _]. cbn [fold_left maximum].
  unfold keep_max at 2. cbn [from_option]. rewrite Rmax_right by exact Hx.
  apply keep_max_fold_Some.
Qed.

Lemma labels_for_nonneg (vid : string) (interactions : list Interaction.t) :
  Forall (fun x => 0 <= x) (labels_for vid interactions).
Proof.
  apply Forall_forall. intros x Hin. unfold labels_for in Hin.
  apply list_elem_of_omap in Hin as (i & _ & Hi).
  eapply spec_label_nonneg, Hi.
Qed.

(** C6.  After the aggregation loop, the entry of [venue_label] for a venue
    is the maximum of the labels of the user's qualifying interactions with
    that venue (LIKE, SAVE, VISIT: 1; VIEW of at most 15 seconds: 0; VIEW of
    at least 60 seconds: 1), and the venue has no entry when no interaction
    qualifies.  In particular a VISIT and a short VIEW of one venue, in
    either order, give the label 1. *)
Theorem venue_label_is_max_label :
  (forall (interactions : list Interaction.t) (vid : string),
     dict_get (aggregate_labels interactions) vid
     = maximum (labels_for vid interactions))
  /\ (forall visit view : Interaction.t,
        Interaction.interaction_type visit = VISIT ->
        Interaction.interaction_type view = VIEW ->
        (Interaction.duration_seconds view <= 15)%Z ->
        Interaction.venue_id view = Interaction.venue_id visit ->
        dict_get (aggregate_labels [visit; view]) (Interaction.venue_id visit)
          = Some 1
        /\ dict_get (aggregate_labels [view; visit]) (Interaction.venue_id visit)
          = Some 1).
Proof.
  assert (Hmax : forall interactions vid,
            dict_get (aggregate_labels interactions) vid
            = maximum (labels_for vid interactions)).
  { intros interactions vid. unfold aggregate_labels.
    rewrite venue_label_fold. apply keep_max_fold_None, labels_for_nonneg. }
  split; [exact Hmax|].
  intros visit view Hvisit Hview Hshort Hsame.
  assert (Lvisit : spec_label (Interaction.interaction_type visit)
                     (Interaction.duration_seconds visit) = Some 1).
  { rewrite Hvisit. unfold spec_label. now rewrite decide_True by auto. }
  assert (Lview : spec_label (Interaction.interaction_type view)
                    (Interaction.duration_seconds view) = Some 0).
  { rewrite Hview. unfold spec_label.
    rewrite decide_False by (intros [|[|]]; discriminate).
    now rewrite decide_True by auto. }
  rewrite !Hmax. unfold labels_for.
  rewrite !filter_cons, filter_nil, !decide_True by done.
  rewrite !omap_cons_list, Lvisit, Lview. cbn [omap list_omap maximum fold_left].
  rewrite Rmax_left, Rmax_right by lra. done.
Qed.

Lemma venue_label_is_max_label_witness :
  dict_get (aggregate_labels [visit_pasta; glance_pasta]) "ven_004" = Some 1.
Proof.
  exact (proj1 (proj2 venue_label_is_max_label visit_pasta glance_pasta
                  eq_refl eq_refl ltac:(cbn; lia) eq_refl)).
Defined.

(** The training set of [demo_db]: one sample, labelled 1. *)
Lemma demo_training_set :
  training_set demo_engine
  = Ok ([get_venue_features pasta_perfetto demo_profile], [1]).
Proof.
  assert (E : training_set demo_engine
              = Ok ([get_venue_features pasta_perfetto demo_profile],
                    [Rmax (Rmax 0 1) 0])) by reflexivity.
  rewrite E. do 3 f_equal. rewrite (Rmax_right 0 1), Rmax_left by lra. reflexivity.
Qed.

(** ** CompatibilityScorer *)

Lemma uint_of_string_zeros (k : nat) (s : string) :
  NilEmpty.uint_of_string (zeros k ++ s)
  = Nat.iter k Decimal.D0 <$> NilEmpty.uint_of_string s.
Proof.
  induction k as [|k IH].
  - change (zeros 0 ++ s) with s. destruct (NilEmpty.uint_of_string s); reflexivity.
  - change (zeros (S k) ++ s) with (String "0" (zeros k ++ s)).
    cbn [NilEmpty.uint_of_string]. rewrite IH.
    destruct (NilEmpty.uint_of_string s); reflexivity.
Qed.

Lemma of_uint_leading_zeros (k : nat) (d : Decimal.uint) :
  Nat.of_uint (Nat.iter k Decimal.D0 d) = Nat.of_uint d.
Proof. induction k as [|k IH]; [reflexivity|]. exact IH. Qed.

Lemma parse_candidate_id_format (i : nat) :
  parse_candidate_id (candidate_id i) = Some i.
Proof.
  unfold candidate_id, format_03d.
  match goal with |- context [zeros ?k ++ ?s] =>
    change (parse_candidate_id ("user_" ++ zeros k ++ s))
      with (option_map Nat.of_uint (NilEmpty.uint_of_string (zeros k ++ s))) end.
  rewrite uint_of_string_zeros, NilEmpty.usu. cbn [fmap option_fmap option_map].
  now rewrite of_uint_leading_zeros, DecimalNat.Unsigned.of_to.
Qed.

#[global] Instance candidate_id_inj : Inj (=) (=) candidate_id.
Proof.
  intros i j E. apply (f_equal parse_candidate_id) in E.
  rewrite !parse_candidate_id_format in E. congruence.
Qed.

Lemma get_user_Some (d : LunaDatabase) (id : string) (u : User.t) :
  get_user d id = Some u -> User.user_id u = id /\ u ∈ users d.
Proof.
  unfold get_user. intros H.
  destruct (filter _ (users d)) as [|u' l] eqn:E; [discriminate|].
  injection H as ->.
  assert (Hin : u ∈ filter (fun u0 => User.user_id u0 = id) (users d))
    by (rewrite E; left).
  now apply list_elem_of_filter in Hin.
Qed.

(** As many consecutive candidates as found are that many distinct rows. *)
Lemma initial_run_bounded (d : LunaDatabase) (i : nat) :
  (forall j, (j < i)%nat -> is_Some (get_user d (candidate_id j))) ->
  (i <= length (users d))%nat.
Proof.
  intros Hall.
  assert (Hsub : candidate_id <$> seq 0 i ⊆+ User.user_id <$> users d).
  { apply NoDup_submseteq.
    - apply NoDup_fmap_2; [apply _|apply NoDup_seq].
    - intros id Hin. apply list_elem_of_fmap in Hin as (j & -> & Hj).
      apply elem_of_seq in Hj. destruct (Hall j) as [u Hu]; [lia|].
      apply get_user_Some in Hu as [<- Hin]. now apply list_elem_of_fmap_2. }
  apply submseteq_length in Hsub. now rewrite !length_fmap, length_seq in Hsub.
Qed.

(** The candidate loop reaches its [break] within the fuel that
    [recommend_users] gives it. *)
Lemma collect_users_fuel (d : LunaDatabase) (user_id : string)
    (target : User.t) (fuel i : nat) (acc : list User.t) :
  (forall j, (j < i)%nat -> is_Some (get_user d (candidate_id j))) ->
  (length (users d) < i + fuel)%nat ->
  exists l, collect_users d user_id target fuel i acc = Some l.
Proof.
  revert i acc. induction fuel as [|fuel IH]; intros i acc Hall Hlt.
  - apply initial_run_bounded in Hall. lia.
  - cbn [collect_users].
    destruct (get_user d (candidate_id i)) as [u|] eqn:Hu; [|eauto].
    apply IH; [|lia]. intros j Hj.
    destruct (decide (j = i)) as [->|]; [now rewrite Hu|apply Hall; lia].
Qed.

Lemma collect_users_enough_fuel (d : LunaDatabase) (user_id : string)
    (target : User.t) :
  exists l, collect_users d user_id target (S (length (users d))) 0 [] = Some l.
Proof. apply collect_users_fuel; [intros j Hj|]; lia. Qed.

(** Every collected user was found under a candidate identifier of the
    initial run, is not the target and is not blocked by the target. *)
Lemma collect_users_sound (d : LunaDatabase) (user_id : string)
    (target : User.t) (fuel i : nat) (acc l : list User.t) :
  collect_users d user_id target fuel i acc = Some l ->
  (forall j, (j < i)%nat -> is_Some (get_user d (candidate_id j))) ->
  forall u, u ∈ l ->
    u ∈ acc
    \/ (in_initial_run d (User.user_id u)
        /\ get_user d (User.user_id u) = Some u
        /\ User.user_id u <> user_id
        /\ User.user_id u ∉ User.blocked_users target).
Proof.
  revert i acc. induction fuel as [|fuel IH]; intros i acc Hrun Hall u Hin;
    [discriminate|].
  cbn [collect_users] in Hrun.
  destruct (get_user d (candidate_id i)) as [user|] eqn:Hu.
  2:{ injection Hrun as <-. now left. }
  assert (Hall' : forall j, (j < S i)%nat -> is_Some (get_user d (candidate_id j))).
  { intros j Hj. destruct (decide (j = i)) as [->|]; [now rewrite Hu|apply Hall; lia]. }
  destruct (IH _ _ Hrun Hall' u Hin) as [Hacc|Hnew]; [|now right].
  destruct (decide _) as [[Hne Hnb]|_]; [|now left].
  apply elem_of_app in Hacc as [Hacc|Hlast]; [now left|].
  apply list_elem_of_singleton in Hlast as ->. right.
  destruct (get_user_Some _ _ _ Hu) as [Hid _].
  repeat split; auto.
  - exists i. split; [auto|]. intros j Hj. apply Hall'. lia.
  - now rewrite Hid.
Qed.

Lemma score_users_total (self : RecommendationEngine) (p : Profile.t)
    (l : list User.t) :
  (forall u, u ∈ l -> get_user (db self) (User.user_id u) = Some u) ->
  exists scored,
    score_users self p l = Ok scored
    /\ forall u s, (u, s) ∈ scored ->
         u ∈ l
         /\ exists q, build_user_profile self (User.user_id u) = Ok q
                      /\ s = compatibility_score p q.
Proof.
  induction l as [|u l IH]; intros Hall.
  - exists []. split; [reflexivity|]. intros u s H. now apply not_elem_of_nil in H.
  - destruct (build_user_profile_Some self (User.user_id u) u) as [q Hq];
      [apply Hall; left|].
    destruct IH as (scored & Hs & Hscored); [intros u' Hu'; apply Hall; now right|].
    exists ((u, compatibility_score p q) :: scored). split.
    + cbn [score_users]. rewrite Hq. cbn [mbind result_bind]. now rewrite Hs.
    + intros u' s Hin. apply elem_of_cons in Hin as [[= -> ->]|Hin].
      * split; [left|eauto].
      * destruct (Hscored u' s Hin) as [Hl Hq']. split; [now right|exact Hq'].
Qed.

(** C7 (counterexample).  For two profiles with no interests the
    interest-overlap term is not 0.5. *)
Lemma interest_overlap_both_empty_not_half :
  Profile.interests (newcomer "user_000" (40.7128, -74.0060)) = []
  /\ Profile.interests (newcomer "user_001" (40.7580, -73.9855)) = []
  /\ interest_overlap (newcomer "user_000" (40.7128, -74.0060))
                      (newcomer "user_001" (40.7580, -73.9855)) <> 0.5.
Proof.
  split; [reflexivity|]. split; [reflexivity|].
  unfold interest_overlap. cbn [Profile.interests newcomer list_to_set foldr].
  replace (∅ ∩ ∅ : gset string) with (∅ : gset string) by set_solver.
  replace (∅ ∪ ∅ : gset string) with (∅ : gset string) by set_solver.
  rewrite size_empty. cbn [Nat.max INR]. lra.
Qed.

(** C7 (as amended).  When both interest lists are empty the
    interest-overlap term is 0: the intersection is empty and the guard
    [max(..., 1)] makes the denominator 1. *)
Theorem interest_overlap_both_empty (target_profile other_profile : Profile.t) :
  Profile.interests target_profile = [] ->
  Profile.interests other_profile = [] ->
  interest_overlap target_profile other_profile = 0.
Proof.
  intros Ht Ho. unfold interest_overlap. rewrite Ht, Ho. cbn [list_to_set foldr].
  replace (∅ ∩ ∅ : gset string) with (∅ : gset string) by set_solver.
  replace (∅ ∪ ∅ : gset string) with (∅ : gset string) by set_solver.
  rewrite size_empty. cbn [Nat.max INR]. lra.
Qed.

Lemma interest_overlap_both_empty_witness :
  interest_overlap (newcomer "user_000" (40.7128, -74.0060))
                   (newcomer "user_001" (40.7580, -73.9855)) = 0.
Proof.
  exact (interest_overlap_both_empty
           (newcomer "user_000" (40.7128, -74.0060))
           (newcomer "user_001" (40.7580, -73.9855)) eq_refl eq_refl).
Defined.

Lemma interest_overlap_sym (a b : Profile.t) :
  interest_overlap a b = interest_overlap b a.
Proof.
  unfold interest_overlap. cbv zeta.
  rewrite (comm_L (∩) (list_to_set (Profile.interests a))).
  now rewrite (comm_L (∪) (list_to_set (Profile.interests a))).
Qed.

Lemma category_overlap_sym (a b : Profile.t) :
  category_overlap a b = category_overlap b a.
Proof.
  unfold category_overlap. cbv zeta.
  rewrite (comm_L (∩) (dom (Profile.category_scores a))).
  now rewrite (comm_L (∪) (dom (Profile.category_scores a))).
Qed.

Lemma location_score_sym (a b : Profile.t) :
  location_score a b = location_score b a.
Proof. unfold location_score. now rewrite calculate_distance_sym. Qed.

(** C8.  The Haversine distance is symmetric, and so is the compatibility
    score [0.4*interest_overlap + 0.35*category_overlap +
    0.25*location_score] of any two profiles. *)
Theorem compatibility_score_sym (a b : Profile.t) :
  calculate_distance (Profile.location a) (Profile.location b)
    = calculate_distance (Profile.location b) (Profile.location a)
  /\ compatibility_score a b
     = interest_overlap a b * 0.4 + category_overlap a b * 0.35
       + location_score a b * 0.25
  /\ compatibility_score a b = compatibility_score b a.
Proof.
  split; [apply calculate_distance_sym|]. split; [reflexivity|].
  unfold compatibility_score.
  now rewrite interest_overlap_sym, category_overlap_sym, location_score_sym.
Qed.

(** [recommend_users] returns for every stored user. *)
Lemma recommend_users_total (self : RecommendationEngine) (user_id : string)
    (limit : Z) (target : User.t) :
  get_user (db self) user_id = Some target ->
  exists p all_users scored,
    build_user_profile self user_id = Ok p
    /\ collect_users (db self) user_id target (S (length (users (db self)))) 0 []
       = Some all_users
    /\ score_users self p all_users = Ok scored
    /\ recommend_users self user_id limit
       = Some (Ok (slice_to limit (sort_desc snd scored))).
Proof.
  intros Ht.
  destruct (build_user_profile_Some self user_id target Ht) as [p Hp].
  destruct (collect_users_enough_fuel (db self) user_id target) as [l Hl].
  destruct (score_users_total self p l) as (scored & Hs & _).
  { intros u Hu.
    destruct (collect_users_sound _ _ _ _ _ _ _ Hl ltac:(intros; lia) u Hu)
      as [Hnil|(_ & Hget & _)]; [now apply not_elem_of_nil in Hnil|exact Hget]. }
  exists p, l, scored. repeat split; auto.
  unfold recommend_users, recommend_users_fuel. rewrite Hp, Ht, Hl, Hs.
  reflexivity.
Qed.

(** C10.  For a stored user, [recommend_users] returns (the candidate loop
    ends within its fuel and nothing raises), and a user whose identifier is
    not one of [user_000], [user_001], ... before the first identifier
    without a stored user occurs in the returned list with no score. *)
Theorem recommend_users_only_initial_run (self : RecommendationEngine)
    (user_id : string) (limit : Z) (target : User.t) :
  get_user (db self) user_id = Some target ->
  exists scored,
    recommend_users self user_id limit = Some (Ok scored)
    /\ forall u : User.t,
         ~ in_initial_run (db self) (User.user_id u) ->
         forall s : R, (u, s) ∉ scored.
Proof.
  intros Ht.
  destruct (recommend_users_total self user_id limit target Ht)
    as (p & l & scored & Hp & Hl & Hs & Hrec).
  eexists. split; [exact Hrec|].
  intros u Hrun s Hin. apply Hrun.
  apply elem_of_slice_to, elem_of_sort_desc in Hin.
  destruct (score_users_total self p l) as (scored' & Hs' & Hscored).
  { intros u' Hu'.
    destruct (collect_users_sound _ _ _ _ _ _ _ Hl ltac:(intros; lia) u' Hu')
      as [Hnil|(_ & Hget & _)]; [now apply not_elem_of_nil in Hnil|exact Hget]. }
  rewrite Hs in Hs'. injection Hs' as <-.
  destruct (Hscored u s Hin) as [Hu _].
  destruct (collect_users_sound _ _ _ _ _ _ _ Hl ltac:(intros; lia) u Hu)
    as [Hnil|(Hr & _)]; [now apply not_elem_of_nil in Hnil|exact Hr].
Qed.

Lemma user_003_outside_initial_run :
  ~ in_initial_run (db demo_engine) "user_003".
Proof.
  intros (i & Hi & Hall).
  change "user_003" with (candidate_id 3) in Hi. apply (inj candidate_id) in Hi.
  subst i. destruct (Hall 2%nat) as [u Hu]; [lia|]. discriminate Hu.
Qed.

Lemma recommend_users_only_initial_run_witness :
  get_user (db demo_engine) "user_000" = Some user_000
  /\ get_user (db demo_engine) "user_003" = Some user_003
  /\ exists scored,
       recommend_users demo_engine "user_000" 5 = Some (Ok scored)
       /\ forall s : R, (user_003, s) ∉ scored.
Proof.
  split; [reflexivity|]. split; [reflexivity|].
  destruct (recommend_users_only_initial_run demo_engine "user_000" 5 _ eq_refl)
    as (scored & Hrec & Hout).
  exists scored. split; [exact Hrec|].
  intros s. apply Hout. exact user_003_outside_initial_run.
Defined.

(** On [demo_db] the only recommendation for [user_000] is [user_001];
    [user_003], whose interests and location are those of [user_000], is
    never scored. *)
Lemma demo_recommend_users :
  recommend_users demo_engine "user_000" 5
  = Some (Ok [(user_001,
               compatibility_score demo_profile
                 {| Profile.user_id := "user_001";
                    Profile.location := (40.7580, -73.9855);
                    Profile.interests := ["hiking"];
                    Profile.category_scores := ∅;
                    Profile.total_engagement := 0;
                    Profile.avg_view_time := IZR 0 / INR 1 |})]).
Proof. reflexivity. Qed.

(** * Further properties of the engine *)

(** ** SpatialMath *)

(** X1.  For all coordinates the argument of [math.sqrt] lies in [0,1], so
    neither [math.sqrt] nor [math.asin] is called outside its domain, and
    the distance lies between 0 and half the circumference, 6371 * pi. *)
Theorem calculate_distance_range (loc1 loc2 : Coordinate) :
  0 <= haversine_a loc1 loc2 <= 1
  /\ 0 <= sqrt (haversine_a loc1 loc2) <= 1
  /\ 0 <= calculate_distance loc1 loc2 <= 6371 * PI.
Proof.
  pose proof (haversine_a_range loc1 loc2) as Ha.
  split; [exact Ha|]. split.
  - split; [apply sqrt_pos|]. rewrite <- sqrt_1. apply sqrt_le_1; lra.
  - split; [apply calculate_distance_nonneg|].
    unfold calculate_distance.
    pose proof (asin_bound (sqrt (haversine_a loc1 loc2))). lra.
Qed.

(** A venue at the coordinates of the profile is at distance 0 and
    gets the distance feature 1. *)
Theorem same_place_distance_feature (v : Venue.t) (p : Profile.t) :
  Profile.location p = Venue.location v ->
  calculate_distance (Profile.location p) (Venue.location v) = 0
  /\ nth 1 (get_venue_features v p) 0 = 1.
Proof.
  intros E. split; [rewrite E; apply calculate_distance_same|].
  now apply distance_feature_same_place.
Qed.

Lemma same_place_distance_feature_witness :
  Profile.location demo_profile = Venue.location pasta_perfetto
  /\ nth 1 (get_venue_features pasta_perfetto demo_profile) 0 = 1.
Proof.
  split; [reflexivity|].
  exact (proj2 (same_place_distance_feature pasta_perfetto demo_profile eq_refl)).
Defined.

(** ** ProfileBuilder *)

Lemma hits_snoc (d : LunaDatabase) (c : string) (kind : InteractionType)
    (l : list Interaction.t) (i : Interaction.t) :
  hits d c kind (l ++ [i])
  = (hits d c kind l + if decide (hits_category d c kind i) then 1 else 0)%nat.
Proof.
  unfold hits. rewrite filter_app, length_app. f_equal.
  rewrite filter_cons, filter_nil. now destruct (decide _).
Qed.

Lemma view_seconds_snoc (d : LunaDatabase) (l : list Interaction.t)
    (i : Interaction.t) :
  view_seconds d (l ++ [i])
  = (view_seconds d l
     + if decide (timed_view d i) then Interaction.duration_seconds i else 0)%Z.
Proof.
  unfold view_seconds. rewrite filter_app, fmap_app, foldr_app.
  rewrite filter_cons, filter_nil.
  set (tail := if decide (timed_view d i) then _ else _).
  assert (E : forall (xs : list Z) (a : Z),
            foldr Z.add a xs = (foldr Z.add 0 xs + a)%Z).
  { induction xs as [|x xs IH]; intros a; cbn [foldr]; [lia|].
    rewrite (IH a). lia. }
  rewrite E. f_equal. subst tail. destruct (decide _); cbn; lia.
Qed.

Lemma tally_snoc (d : LunaDatabase) (l : list Interaction.t) (i : Interaction.t) :
  exists b : string -> InteractionType -> nat,
    (forall c,
       tally d c (l ++ [i])
       = {| views := views (tally d c l) + b c VIEW;
            likes := likes (tally d c l) + b c LIKE;
            saves := saves (tally d c l) + b c SAVE;
            visits := visits (tally d c l) + b c VISIT |})
    /\ (forall c k, hits_category d c k i -> b c k = 1%nat)
    /\ (forall c k, ~ hits_category d c k i -> b c k = 0%nat).
Proof.
  exists (fun c k => if decide (hits_category d c k i) then 1%nat else 0%nat).
  split; [|split].
  - intros c. unfold tally. cbn [views likes saves visits].
    now rewrite !hits_snoc.
  - intros c k H. now rewrite decide_True.
  - intros c k H. now rewrite decide_False.
Qed.

Lemma view_seconds_snoc_cases (d : LunaDatabase) (l : list Interaction.t)
    (i : Interaction.t) :
  exists extra : Z,
    view_seconds d (l ++ [i]) = (view_seconds d l + extra)%Z
    /\ (timed_view d i -> extra = Interaction.duration_seconds i)
    /\ (~ timed_view d i -> extra = 0%Z).
Proof.
  eexists. split; [apply view_seconds_snoc|]. split; intros H.
  - now rewrite decide_True.
  - now rewrite decide_False.
Qed.

Lemma metrics_lookup_same (o : option Metrics) (m : Metrics) :
  o = (if decide (m = metrics0) then None else Some m) ->
  default metrics0 o = m.
Proof. intros ->. now destruct (decide _) as [->|]. Qed.

(** The state of the profile loop after the log [l]. *)
Lemma profile_fold (d : LunaDatabase) (l : list Interaction.t) :
  exists ce,
    fold_left (profile_step d) l (∅, 0%Z) = (ce, view_seconds d l)
    /\ forall c, ce !! c
                 = if decide (tally d c l = metrics0) then None
                   else Some (tally d c l).
Proof.
  induction l as [|i l IH] using rev_ind.
  - exists ∅. split; [reflexivity|]. intros c. now rewrite lookup_empty.
  - destruct IH as (ce & Hfold & Hce).
    rewrite fold_left_app, Hfold. cbn [fold_left].
    destruct (view_seconds_snoc_cases d l i) as (extra & -> & Hyes & Hno).
    destruct (tally_snoc d l i) as (b & Htally & Hb1 & Hb0).
    assert (Hsame : forall c,
              (forall k, k <> COMMENT -> k <> CLICK -> b c k = 0%nat) ->
              ce !! c = if decide (tally d c (l ++ [i]) = metrics0) then None
                        else Some (tally d c (l ++ [i]))).
    { intros c Hz. rewrite Htally, !Hz, !Nat.add_0_r by discriminate.
      rewrite Hce. now destruct (tally d c l). }
    unfold profile_step, timed_view, hits_category in *.
    destruct (get_venue d (Interaction.venue_id i)) as [v|].
    2:{ exists ce. split.
        - f_equal. rewrite Hno; [lia|]. intros [_ [? ?]]. discriminate.
        - intros c. apply Hsame. intros k _ _. apply Hb0.
          intros [_ ?]. discriminate. }
    cbn [fmap option_fmap option_map] in Hb1, Hb0.
    assert (Hother : forall f c,
      value (Venue.category v) <> c ->
      bump f (value (Venue.category v)) ce !! c
      = if decide (tally d c (l ++ [i]) = metrics0) then None
        else Some (tally d c (l ++ [i]))).
    { intros f c Hne. unfold bump. rewrite lookup_insert_ne by exact Hne.
      apply Hsame. intros k _ _. apply Hb0. intros [_ ?]. congruence. }
    pose proof (metrics_lookup_same _ _ (Hce (value (Venue.category v)))) as Hprev.
    destruct (Interaction.interaction_type i) eqn:Hty.
    + (* VIEW *)
      eexists. split; [f_equal; rewrite Hyes; [reflexivity|split; eauto]|].
      intros c. destruct (decide (value (Venue.category v) = c)) as [<-|Hne];
        [|now apply Hother].
      unfold bump. rewrite lookup_insert_eq, Hprev, Htally.
      rewrite (Hb1 _ VIEW) by done.
      rewrite (Hb0 _ LIKE), (Hb0 _ SAVE), (Hb0 _ VISIT)
        by (intros [? _]; discriminate).
      rewrite !Nat.add_0_r, Nat.add_1_r. now rewrite decide_False by discriminate.
    + (* LIKE *)
      eexists. split; [f_equal; rewrite Hno; [lia|intros [? _]; discriminate]|].
      intros c. destruct (decide (value (Venue.category v) = c)) as [<-|Hne];
        [|now apply Hother].
      unfold bump. rewrite lookup_insert_eq, Hprev, Htally.
      rewrite (Hb1 _ LIKE) by done.
      rewrite (Hb0 _ VIEW), (Hb0 _ SAVE), (Hb0 _ VISIT)
        by (intros [? _]; discriminate).
      rewrite !Nat.add_0_r, Nat.add_1_r. now rewrite decide_False by discriminate.
    + (* COMMENT *)
      exists ce. split; [f_equal; rewrite Hno; [lia|intros [? _]; discriminate]|].
      intros c. apply Hsame. intros k Hk _. apply Hb0. intros [? _]. congruence.
    + (* SAVE *)
      eexists. split; [f_equal; rewrite Hno; [lia|intros [? _]; discriminate]|].
      intros c. destruct (decide (value (Venue.category v) = c)) as [<-|Hne];
        [|now apply Hother].
      unfold bump. rewrite lookup_insert_eq, Hprev, Htally.
      rewrite (Hb1 _ SAVE) by done.
      rewrite (Hb0 _ VIEW), (Hb0 _ LIKE), (Hb0 _ VISIT)
        by (intros [? _]; discriminate).
      rewrite !Nat.add_0_r, Nat.add_1_r. now rewrite decide_False by discriminate.
    + (* CLICK *)
      exists ce. split; [f_equal; rewrite Hno; [lia|intros [? _]; discriminate]|].
      intros c. apply Hsame. intros k _ Hk. apply Hb0. intros [? _]. congruence.
    + (* VISIT *)
      eexists. split; [f_equal; rewrite Hno; [lia|intros [? _]; discriminate]|].
      intros c. destruct (decide (value (Venue.category v) = c)) as [<-|Hne];
        [|now apply Hother].
      unfold bump. rewrite lookup_insert_eq, Hprev, Htally.
      rewrite (Hb1 _ VISIT) by done.
      rewrite (Hb0 _ VIEW), (Hb0 _ LIKE), (Hb0 _ SAVE)
        by (intros [? _]; discriminate).
      rewrite !Nat.add_0_r, Nat.add_1_r. now rewrite decide_False by discriminate.
Qed.

(** What [build_user_profile] returns, with the loop replaced by counts. *)
Lemma build_user_profile_inv (self : RecommendationEngine) (uid : string)
    (p : Profile.t) :
  build_user_profile self uid = Ok p ->
  exists u ce,
    get_user (db self) uid = Some u
    /\ (forall c,
          ce !! c
          = if decide (tally (db self) c (get_user_interactions (db self) uid)
                       = metrics0)
            then None
            else Some (tally (db self) c (get_user_interactions (db self) uid)))
    /\ p = {| Profile.user_id := uid;
              Profile.location := User.location u;
              Profile.interests := User.interests u;
              Profile.category_scores := category_score <$> ce;
              Profile.total_engagement :=
                length (get_user_interactions (db self) uid);
              Profile.avg_view_time :=
                IZR (view_seconds (db self)
                       (get_user_interactions (db self) uid))
                / INR (Nat.max
                         (length (filter is_view
                                    (get_user_interactions (db self) uid))) 1) |}.
Proof.
  unfold build_user_profile.
  destruct (profile_fold (db self) (get_user_interactions (db self) uid))
    as (ce & -> & Hce).
  destruct (get_user (db self) uid) as [u|]; [|discriminate].
  intros [= <-]. exists u, ce. auto.
Qed.

(** X2.  The profile in terms of the log: a category has a score exactly
    when the user has a VIEW, LIKE, SAVE or VISIT of a stored venue of that
    category, and the score is 0.3, 1.0, 1.5 and 2.0 times the numbers of
    those; COMMENTs, CLICKs and interactions with unknown venues count only
    in [total_engagement]; [avg_view_time] divides the seconds of the VIEWs
    of stored venues by the number of all VIEWs (at least 1). *)
Theorem build_user_profile_counts (self : RecommendationEngine) (uid : string)
    (p : Profile.t) :
  build_user_profile self uid = Ok p ->
  let d := db self in
  let l := get_user_interactions d uid in
  (forall c,
     Profile.category_scores p !! c
     = if decide (hits d c VIEW l + hits d c LIKE l
                  + hits d c SAVE l + hits d c VISIT l = 0)%nat
       then None
       else Some (INR (hits d c VIEW l) * 0.3 + INR (hits d c LIKE l) * 1.0
                  + INR (hits d c SAVE l) * 1.5 + INR (hits d c VISIT l) * 2.0))
  /\ Profile.total_engagement p = length l
  /\ Profile.avg_view_time p
     = IZR (view_seconds d l) / INR (Nat.max (length (filter is_view l)) 1).
Proof.
  intros Hp d l.
  destruct (build_user_profile_inv self uid p Hp) as (u & ce & _ & Hce & ->).
  cbn [Profile.category_scores Profile.total_engagement Profile.avg_view_time].
  split; [|split; reflexivity].
  intros c. rewrite lookup_fmap, Hce. fold d l.
  destruct (decide (tally d c l = metrics0)) as [E|E].
  - rewrite decide_True; [reflexivity|].
    unfold tally, metrics0 in E. injection E as -> -> -> ->. reflexivity.
  - rewrite decide_False; [reflexivity|].
    intros Hz. apply E. unfold tally, metrics0. f_equal; lia.
Qed.

Lemma build_user_profile_counts_witness :
  Profile.category_scores demo_profile !! "Restaurant"
  = Some (INR 1 * 0.3 + INR 0 * 1.0 + INR 0 * 1.5 + INR 1 * 2.0)
  /\ Profile.category_scores demo_profile !! "Park" = None.
Proof.
  destruct (build_user_profile_counts demo_engine "user_000" demo_profile
              demo_profile_built) as (H & _ & _).
  split.
  - exact (H "Restaurant").
  - exact (H "Park").
Defined.

Lemma sumZ_Permutation (xs ys : list Z) :
  xs ≡ₚ ys -> foldr Z.add 0%Z xs = foldr Z.add 0%Z ys.
Proof.
  induction 1 as [|x xs ys _ IH|x y xs|xs ys zs _ IH1 _ IH2]; cbn [foldr];
    [reflexivity|rewrite IH; reflexivity|lia|congruence].
Qed.

Lemma get_venue_same_venues (d d' : LunaDatabase) (vid : string) :
  venues d = venues d' -> get_venue d vid = get_venue d' vid.
Proof. unfold get_venue. now intros ->. Qed.

Lemma hits_Permutation (d d' : LunaDatabase) (c : string)
    (k : InteractionType) (l l' : list Interaction.t) :
  venues d = venues d' -> l ≡ₚ l' -> hits d c k l = hits d' c k l'.
Proof.
  intros Hv Hl. unfold hits.
  rewrite (list_filter_iff (hits_category d c k) (hits_category d' c k)).
  - now rewrite Hl.
  - intros i. unfold hits_category.
    now rewrite (get_venue_same_venues d d' _ Hv).
Qed.

Lemma view_seconds_Permutation (d d' : LunaDatabase)
    (l l' : list Interaction.t) :
  venues d = venues d' -> l ≡ₚ l' -> view_seconds d l = view_seconds d' l'.
Proof.
  intros Hv Hl. unfold view_seconds. apply sumZ_Permutation.
  rewrite (list_filter_iff (timed_view d) (timed_view d')).
  - now rewrite Hl.
  - intros i. unfold timed_view.
    now rewrite (get_venue_same_venues d d' _ Hv).
Qed.

(** X3.  The profile does not depend on the order of the interaction log:
    engines whose databases have the same users and venues and the same
    interactions in any order build the same profile (or raise the same
    exception). *)
Theorem build_user_profile_order_independent
    (self self' : RecommendationEngine) (uid : string) :
  users (db self) = users (db self') ->
  venues (db self) = venues (db self') ->
  interactions (db self) ≡ₚ interactions (db self') ->
  build_user_profile self uid = build_user_profile self' uid.
Proof.
  intros Hu Hv Hi.
  assert (Hl : get_user_interactions (db self) uid
               ≡ₚ get_user_interactions (db self') uid).
  { unfold get_user_interactions. now rewrite Hi. }
  assert (Hg : get_user (db self) uid = get_user (db self') uid).
  { unfold get_user. now rewrite Hu. }
  destruct (get_user (db self) uid) as [u|] eqn:Hgu.
  2:{ rewrite (build_user_profile_None self uid Hgu).
      now rewrite (build_user_profile_None self' uid). }
  destruct (build_user_profile_Some self uid u Hgu) as [p Hp].
  destruct (build_user_profile_Some self' uid u (eq_sym Hg)) as [p' Hp'].
  rewrite Hp, Hp'. f_equal.
  destruct (build_user_profile_inv self uid p Hp) as (u1 & ce & Hu1 & Hce & ->).
  destruct (build_user_profile_inv self' uid p' Hp') as (u2 & ce' & Hu2 & Hce' & ->).
  assert (u1 = u) by congruence. assert (u2 = u) by congruence. subst u1 u2.
  assert (ce = ce') as <-.
  { apply map_eq. intros c. rewrite Hce, Hce'.
    assert (E : tally (db self) c (get_user_interactions (db self) uid)
                = tally (db self') c (get_user_interactions (db self') uid)).
    { unfold tally. f_equal; now apply hits_Permutation. }
    now rewrite E. }
  f_equal.
  - now rewrite Hl.
  - rewrite (view_seconds_Permutation (db self) (db self') _ _ Hv Hl).
    do 3 f_equal. now rewrite Hl.
Qed.

Lemma build_user_profile_order_independent_witness :
  interactions (db demo_engine) = [ visit_pasta; glance_pasta ]
  /\ interactions (db (init reordered_db)) = [ glance_pasta; visit_pasta ]
  /\ build_user_profile demo_engine "user_000"
     = build_user_profile (init reordered_db) "user_000".
Proof.
  split; [reflexivity|]. split; [reflexivity|].
  apply (build_user_profile_order_independent demo_engine (init reordered_db));
    [reflexivity|reflexivity|]. apply Permutation_swap.
Defined.

Lemma category_score_nonzero (m : Metrics) :
  m <> metrics0 -> 0.3 <= category_score m.
Proof.
  intros Hne. unfold category_score.
  pose proof (pos_INR (views m)). pose proof (pos_INR (likes m)).
  pose proof (pos_INR (saves m)). pose proof (pos_INR (visits m)).
  assert (Hsum : (1 <= views m + likes m + saves m + visits m)%nat).
  { destruct m as [[|nv] [|nl] [|ns] [|nvi]]; cbn [views likes saves visits];
      try lia. exfalso. now apply Hne. }
  apply le_INR in Hsum. rewrite !plus_INR in Hsum. cbn [INR] in Hsum. lra.
Qed.

(** X4.  A category that has a score has one of at least 0.3: the smallest
    contribution is a single VIEW. *)
Theorem category_scores_at_least_one_view (self : RecommendationEngine)
    (uid : string) (p : Profile.t) (c : string) (s : R) :
  build_user_profile self uid = Ok p ->
  Profile.category_scores p !! c = Some s ->
  0.3 <= s.
Proof.
  intros Hp.
  destruct (build_user_profile_inv self uid p Hp) as (u & ce & _ & Hce & ->).
  cbn [Profile.category_scores]. rewrite lookup_fmap, Hce.
  destruct (decide _) as [|Hne]; [discriminate|]. cbn. intros [= <-].
  now apply category_score_nonzero.
Qed.

Lemma category_scores_at_least_one_view_witness :
  0.3 <= INR 1 * 0.3 + INR 0 * 1.0 + INR 0 * 1.5 + INR 1 * 2.0.
Proof.
  exact (category_scores_at_least_one_view demo_engine "user_000" demo_profile
           "Restaurant" _ demo_profile_built eq_refl).
Defined.

(** ** HybridScorer *)

Lemma insert_desc_fmap {A B} (f : A -> B) (key : B -> R) (x : A) (l : list A) :
  insert_desc key (f x) (f <$> l) = f <$> insert_desc (fun a => key (f a)) x l.
Proof.
  induction l as [|y l IH]; [reflexivity|].
  cbn [fmap list_fmap insert_desc]. destruct (Rlt_dec _ _); [|reflexivity].
  cbn [fmap list_fmap]. f_equal. exact IH.
Qed.

Lemma sort_desc_fmap {A B} (f : A -> B) (key : B -> R) (l : list A) :
  sort_desc key (f <$> l) = f <$> sort_desc (fun a => key (f a)) l.
Proof.
  induction l as [|x l IH]; [reflexivity|].
  unfold sort_desc in *. cbn [fmap list_fmap foldr].
  now rewrite IH, insert_desc_fmap.
Qed.

Lemma sort_desc_ext {A} (k1 k2 : A -> R) (l : list A) :
  (forall x, k1 x = k2 x) -> sort_desc k1 l = sort_desc k2 l.
Proof.
  intros E. unfold sort_desc. induction l as [|x l IH]; [reflexivity|].
  cbn [foldr]. rewrite IH. generalize (foldr (insert_desc k2) [] l).
  intros s. induction s as [|y s IHs]; [reflexivity|].
  cbn [insert_desc]. rewrite !E, IHs. reflexivity.
Qed.

Lemma slice_to_fmap {A B} (f : A -> B) (limit : Z) (l : list A) :
  slice_to limit (f <$> l) = f <$> slice_to limit l.
Proof.
  unfold slice_to. rewrite length_fmap.
  destruct (0 <=? limit)%Z; now rewrite fmap_take.
Qed.

Lemma length_sort_desc {A} (key : A -> R) (l : list A) :
  length (sort_desc key l) = length l.
Proof. now rewrite sort_desc_perm. Qed.

Lemma length_slice_to_exact {A} (limit : Z) (l : list A) :
  length (slice_to limit l)
  = if (0 <=? limit)%Z then Nat.min (Z.to_nat limit) (length l)
    else (length l - Z.to_nat (- limit))%nat.
Proof.
  unfold slice_to. destruct (0 <=? limit)%Z; rewrite length_take; lia.
Qed.

Lemma StronglySorted_take {A} (R : A -> A -> Prop) (n : nat) (l : list A) :
  StronglySorted R l -> StronglySorted R (take n l).
Proof.
  intros H. revert n. induction H as [|x l Hl IH Hx]; intros [|n];
    cbn [take]; try constructor.
  - apply IH.
  - apply Forall_take, Hx.
Qed.

Lemma StronglySorted_slice_to {A} (R : A -> A -> Prop) (limit : Z) (l : list A) :
  StronglySorted R l -> StronglySorted R (slice_to limit l).
Proof.
  intros H. unfold slice_to.
  destruct (0 <=? limit)%Z; now apply StronglySorted_take.
Qed.

Lemma StronglySorted_fmap_2 {A B} (f : A -> B) (R : B -> B -> Prop) (l : list A) :
  StronglySorted (fun a b => R (f a) (f b)) l -> StronglySorted R (f <$> l).
Proof.
  induction 1 as [|x l Hl IH Hx]; cbn [fmap list_fmap]; constructor; [exact IH|].
  apply Forall_fmap. exact Hx.
Qed.

Lemma StronglySorted_weaken {A} (R R' : A -> A -> Prop) (l : list A) :
  (forall a b, R a b -> R' a b) -> StronglySorted R l -> StronglySorted R' l.
Proof.
  intros HR. induction 1 as [|x l Hl IH Hx]; constructor; [exact IH|].
  eapply Forall_impl; [exact Hx|]. intros b. apply HR.
Qed.

Lemma score_venue_heuristic (self : RecommendationEngine) (uid : string)
    (p : Profile.t) (v : Venue.t) :
  (score_venue self uid p v).1
  = (v, heuristic_score p v, interest_boost_of (Profile.interests p) v,
     default 0 (Profile.category_scores p !! value (Venue.category v)) * 0.1)
  /\ rd_venue (score_venue self uid p v).2 = Venue.name v
  /\ rd_final_score (score_venue self uid p v).2 = heuristic_score p v.
Proof. unfold score_venue. destruct (decide _); repeat split. Qed.

(** The result of [recommend_venues]: the catalog, sorted by the heuristic
    score and cut at [limit], once with the score and once with the
    breakdown of each venue. *)
Lemma recommend_venues_shape (self : RecommendationEngine) (uid : string)
    (limit : Z) (show_reasoning : bool) (p : Profile.t) :
  build_user_profile self uid = Ok p ->
  let ranked :=
    slice_to limit (sort_desc (heuristic_score p) (get_all_venues (db self))) in
  recommend_venues self uid limit show_reasoning
  = Ok ((fun v => (v, heuristic_score p v)) <$> ranked,
        {| algorithm := "Hybrid Recommendation Engine";
           details := (fun v => (score_venue self uid p v).2) <$> ranked |}).
Proof.
  intros Hp ranked. unfold recommend_venues. rewrite Hp.
  cbn [mbind result_bind]. subst ranked.
  rewrite <- !list_fmap_compose, !sort_desc_fmap, !slice_to_fmap.
  rewrite <- !list_fmap_compose.
  rewrite (sort_desc_ext (fun a => sv_score ((fst ∘ score_venue self uid p) a))
             (heuristic_score p)).
  2:{ intros v. cbn. now rewrite (proj1 (score_venue_heuristic self uid p v)). }
  rewrite (sort_desc_ext
             (fun a => rd_final_score ((snd ∘ score_venue self uid p) a))
             (heuristic_score p)).
  2:{ intros v. cbn. apply score_venue_heuristic. }
  do 2 f_equal. apply list_fmap_ext. intros _ v _. cbn.
  now rewrite (proj1 (score_venue_heuristic self uid p v)).
Qed.

Lemma recommend_venues_Ok_profile (self : RecommendationEngine) (uid : string)
    (limit : Z) (show_reasoning : bool) recs reasoning :
  recommend_venues self uid limit show_reasoning = Ok (recs, reasoning) ->
  exists p, build_user_profile self uid = Ok p.
Proof.
  unfold recommend_venues.
  destruct (build_user_profile self uid) as [p|e]; [eauto|discriminate].
Qed.

(** X5.  [recommend_venues(u, limit)] returns [min(limit, n)] venues of a
    catalog of [n] for [limit >= 0] and all but the last [-limit] for a
    negative limit, with one breakdown entry per returned venue. *)
Theorem recommend_venues_length (self : RecommendationEngine) (uid : string)
    (limit : Z) (show_reasoning : bool)
    (recs : list (Venue.t * R)) (reasoning : Reasoning) :
  recommend_venues self uid limit show_reasoning = Ok (recs, reasoning) ->
  let n := length (get_all_venues (db self)) in
  length (details reasoning) = length recs
  /\ length recs = (if (0 <=? limit)%Z then Nat.min (Z.to_nat limit) n
                    else n - Z.to_nat (- limit))%nat.
Proof.
  intros Hrec n.
  destruct (recommend_venues_Ok_profile _ _ _ _ _ _ Hrec) as [p Hp].
  rewrite (recommend_venues_shape self uid limit show_reasoning p Hp) in Hrec.
  injection Hrec as <- <-. cbn [details].
  rewrite !length_fmap, length_slice_to_exact, length_sort_desc. auto.
Qed.

Lemma recommend_venues_length_witness :
  exists recs reasoning,
    recommend_venues demo_engine "user_000" 10 true = Ok (recs, reasoning)
    /\ length recs = 1%nat /\ length (details reasoning) = 1%nat.
Proof.
  eexists _, _. split; [reflexivity|].
  destruct (recommend_venues_length demo_engine "user_000" 10 true _ _ eq_refl)
    as [H1 H2].
  split; [exact H2|]. rewrite H1. exact H2.
Defined.

(** X6.  The ranked list and the breakdown are both in non-increasing order
    of score. *)
Theorem recommend_venues_sorted (self : RecommendationEngine) (uid : string)
    (limit : Z) (show_reasoning : bool)
    (recs : list (Venue.t * R)) (reasoning : Reasoning) :
  recommend_venues self uid limit show_reasoning = Ok (recs, reasoning) ->
  StronglySorted (fun a b => b.2 <= a.2) recs
  /\ StronglySorted (fun a b => rd_final_score b <= rd_final_score a)
       (details reasoning).
Proof.
  intros Hrec.
  destruct (recommend_venues_Ok_profile _ _ _ _ _ _ Hrec) as [p Hp].
  rewrite (recommend_venues_shape self uid limit show_reasoning p Hp) in Hrec.
  injection Hrec as <- <-. cbn [details].
  pose proof (StronglySorted_slice_to _ limit _
                (sort_desc_sorted (heuristic_score p)
                   (get_all_venues (db self)))) as Hs.
  split; apply StronglySorted_fmap_2; cbn [snd].
  - exact Hs.
  - eapply StronglySorted_weaken; [|exact Hs].
    intros a b H. cbv beta.
    now rewrite !(proj2 (proj2 (score_venue_heuristic self uid p _))).
Qed.

Lemma recommend_venues_sorted_witness :
  exists recs reasoning,
    recommend_venues demo_engine "user_000" 10 true = Ok (recs, reasoning)
    /\ StronglySorted (fun a b => b.2 <= a.2) recs.
Proof.
  eexists _, _. split; [reflexivity|].
  exact (proj1 (recommend_venues_sorted demo_engine "user_000" 10 true _ _
                  eq_refl)).
Defined.

Lemma slice_to_all {A} (limit : Z) (l : list A) :
  (Z.of_nat (length l) <= limit)%Z -> slice_to limit l = l.
Proof.
  intros H. unfold slice_to. destruct (Z.leb_spec 0 limit); [|lia].
  apply take_ge. lia.
Qed.

(** X7.  With a limit of at least the size of the catalog every venue is
    returned exactly once: the returned venues are a permutation of the
    catalog, whatever the user has booked or visited. *)
Theorem recommend_venues_ranks_whole_catalog (self : RecommendationEngine)
    (uid : string) (limit : Z) (show_reasoning : bool)
    (recs : list (Venue.t * R)) (reasoning : Reasoning) :
  recommend_venues self uid limit show_reasoning = Ok (recs, reasoning) ->
  (Z.of_nat (length (get_all_venues (db self))) <= limit)%Z ->
  recs.*1 ≡ₚ get_all_venues (db self).
Proof.
  intros Hrec Hlimit.
  destruct (recommend_venues_Ok_profile _ _ _ _ _ _ Hrec) as [p Hp].
  rewrite (recommend_venues_shape self uid limit show_reasoning p Hp) in Hrec.
  injection Hrec as <- _.
  rewrite <- list_fmap_compose.
  rewrite slice_to_all by (now rewrite length_sort_desc).
  etransitivity; [|apply (sort_desc_perm (heuristic_score p))].
  erewrite list_fmap_ext; [rewrite list_fmap_id; reflexivity|].
  intros; reflexivity.
Qed.

Lemma recommend_venues_ranks_whole_catalog_witness :
  get_user_bookings (db booked_engine) "user_000" = [ book_pasta ]
  /\ exists recs reasoning,
       recommend_venues booked_engine "user_000" 10 true = Ok (recs, reasoning)
       /\ recs.*1 ≡ₚ [ pasta_perfetto ].
Proof.
  split; [reflexivity|]. eexists _, _. split; [reflexivity|].
  apply (recommend_venues_ranks_whole_catalog booked_engine "user_000" 10 true
           _ _ eq_refl).
  cbn. lia.
Defined.

(** X8.  The breakdown is aligned with the ranked list: entry by entry it
    names the venue at the same rank and carries the same score. *)
Theorem recommend_venues_details_aligned (self : RecommendationEngine)
    (uid : string) (limit : Z) (show_reasoning : bool)
    (recs : list (Venue.t * R)) (reasoning : Reasoning) :
  recommend_venues self uid limit show_reasoning = Ok (recs, reasoning) ->
  (fun d => (rd_venue d, rd_final_score d)) <$> details reasoning
  = (fun r => (Venue.name r.1, r.2)) <$> recs.
Proof.
  intros Hrec.
  destruct (recommend_venues_Ok_profile _ _ _ _ _ _ Hrec) as [p Hp].
  rewrite (recommend_venues_shape self uid limit show_reasoning p Hp) in Hrec.
  injection Hrec as <- <-. cbn [details].
  rewrite <- !list_fmap_compose. apply list_fmap_ext. intros _ v _. cbn.
  destruct (score_venue_heuristic self uid p v) as (_ & -> & ->). reflexivity.
Qed.

Lemma recommend_venues_details_aligned_witness :
  exists recs reasoning,
    recommend_venues demo_engine "user_000" 10 true = Ok (recs, reasoning)
    /\ (fun d => (rd_venue d, rd_final_score d)) <$> details reasoning
       = (fun r => (Venue.name r.1, r.2)) <$> recs.
Proof.
  eexists _, _. split; [reflexivity|].
  exact (recommend_venues_details_aligned demo_engine "user_000" 10 true _ _
           eq_refl).
Defined.

Lemma interest_boost_fold (interests : list string) (v : Venue.t) (acc : R) :
  fold_left
    (fun interest_boost interest =>
       if interest_matches interest v then interest_boost + 0.15
       else interest_boost)
    interests acc
  = acc + 0.15 * INR (length (filter (fun i => interest_matches i v = true)
                                     interests)).
Proof.
  revert acc. induction interests as [|i l IH]; intros acc.
  - cbn. lra.
  - cbn [fold_left]. rewrite IH, filter_cons.
    destruct (interest_matches i v) eqn:E.
    + rewrite decide_True by reflexivity. cbn [length]. rewrite S_INR. lra.
    + rewrite decide_False by discriminate. reflexivity.
Qed.


Lemma contains_empty (s : string) : contains "" s = true.
Proof. destruct s; reflexivity. Qed.

(** An empty interest string occurs in every name, so it adds 0.15 to
    the boost of every venue. *)
Theorem empty_interest_boosts_every_venue (interests : list string)
    (v : Venue.t) :
  interest_matches "" v = true
  /\ interest_boost_of ("" :: interests) v
     = 0.15 + interest_boost_of interests v.
Proof.
  assert (E : interest_matches "" v = true).
  { unfold interest_matches. cbn [lower]. now rewrite contains_empty. }
  split; [exact E|].
  unfold interest_boost_of. cbn [fold_left]. rewrite E, !interest_boost_fold. lra.
Qed.

Lemma elem_of_recommend_venues (self : RecommendationEngine) (uid : string)
    (limit : Z) (show_reasoning : bool) (p : Profile.t)
    (recs : list (Venue.t * R)) (reasoning : Reasoning) (v : Venue.t) (s : R) :
  recommend_venues self uid limit show_reasoning = Ok (recs, reasoning) ->
  build_user_profile self uid = Ok p ->
  (v, s) ∈ recs ->
  v ∈ get_all_venues (db self) /\ s = heuristic_score p v.
Proof.
  intros Hrec Hp Hin.
  rewrite (recommend_venues_shape self uid limit show_reasoning p Hp) in Hrec.
  injection Hrec as <- _.
  apply list_elem_of_fmap in Hin as (v' & [= -> ->] & Hin).
  split; [|reflexivity].
  now apply elem_of_slice_to, elem_of_sort_desc in Hin.
Qed.



(** X11.  Cold start: for a stored user without interactions and without
    interests the score of a venue is
    [min(1, 0.25*rating/5 + 0.25*distance_score + 0.2*trending
            + 0.25*0.5*0.1 + 0.05*capacity/1000)]. *)
Theorem recommend_venues_cold_start (self : RecommendationEngine)
    (uid : string) (limit : Z) (show_reasoning : bool) (u : User.t)
    (recs : list (Venue.t * R)) (reasoning : Reasoning) (v : Venue.t) (s : R) :
  get_user (db self) uid = Some u ->
  User.interests u = [] ->
  get_user_interactions (db self) uid = [] ->
  recommend_venues self uid limit show_reasoning = Ok (recs, reasoning) ->
  (v, s) ∈ recs ->
  s = Rmin 1 (0.25 * (Venue.rating v / 5)
              + 0.25 * Rmax 0 (1 - calculate_distance (User.location u)
                                     (Venue.location v) / 10)
              + 0.2 * Venue.trending_score v
              + 0.25 * 0.5 * 0.1
              + 0.05 * (IZR (Venue.capacity v) / 1000)).
Proof.
  intros Hu Hint Hlog Hrec Hin.
  destruct (build_user_profile_Some self uid u Hu) as [p Hp].
  destruct (elem_of_recommend_venues _ _ _ _ _ _ _ _ _ Hrec Hp Hin) as [_ ->].
  destruct (build_user_profile_inv self uid p Hp) as (u' & ce & Hu' & Hce & ->).
  assert (u' = u) as -> by congruence.
  assert (ce = ∅) as ->.
  { apply map_eq. intros c. rewrite Hce, Hlog, lookup_empty.
    now rewrite decide_True by reflexivity. }
  unfold heuristic_score.
  pose proof (base_score_eq v) as E. cbv zeta in E. rewrite E. clear E.
  unfold get_venue_features.
  cbn [nth Profile.category_scores Profile.interests Profile.location].
  rewrite fmap_empty, lookup_empty, Hint.
  rewrite decide_False by (intros [? ?]; discriminate).
  cbn [from_option]. unfold interest_boost_of. cbn [fold_left].
  f_equal. lra.
Qed.

Lemma recommend_venues_cold_start_witness :
  exists recs reasoning,
    recommend_venues (init cold_db) "user_000" 10 true = Ok (recs, reasoning)
    /\ forall v s, (v, s) ∈ recs ->
         s = Rmin 1 (0.25 * (Venue.rating v / 5)
                     + 0.25 * Rmax 0 (1 - calculate_distance
                                            (40.7580, -73.9855)
                                            (Venue.location v) / 10)
                     + 0.2 * Venue.trending_score v
                     + 0.25 * 0.5 * 0.1
                     + 0.05 * (IZR (Venue.capacity v) / 1000)).
Proof.
  eexists _, _. split; [reflexivity|]. intros v s Hin.
  exact (recommend_venues_cold_start (init cold_db) "user_000" 10 true
           _ _ _ v s eq_refl eq_refl eq_refl eq_refl Hin).
Defined.

(** ** RankerTrainer *)

Lemma dict_get_elem_of {V} (d : list (string * V)) (k : string) (v : V) :
  dict_get d k = Some v -> (k, v) ∈ d.
Proof.
  induction d as [|[k' v'] d IH]; cbn [dict_get]; [discriminate|].
  destruct (decide (k' = k)) as [->|]; [intros [= ->]; left|right; auto].
Qed.

Lemma dict_set_values {V} (P : V -> Prop) (d : list (string * V)) (k : string)
    (v : V) :
  Forall (fun kv => P kv.2) d -> P v -> Forall (fun kv => P kv.2) (dict_set d k v).
Proof.
  intros Hd Hv. induction Hd as [|[k' v'] d Hkv Hd IH]; cbn [dict_set].
  - repeat constructor. exact Hv.
  - destruct (decide (k' = k)); constructor; auto.
Qed.

Lemma dict_set_keys {V} (d : list (string * V)) (k : string) (v : V) :
  (dict_set d k v).*1 = if decide (k ∈ d.*1) then d.*1 else (d.*1 ++ [k])%list.
Proof.
  induction d as [|[k' v'] d IH]; cbn [dict_set fmap list_fmap fst].
  - rewrite decide_False by apply not_elem_of_nil. reflexivity.
  - destruct (decide (k' = k)) as [->|Hne]; cbn [fmap list_fmap fst].
    + rewrite decide_True by left. reflexivity.
    + rewrite IH. destruct (decide (k ∈ d.*1)) as [Hin|Hnin].
      * rewrite decide_True by (now right). reflexivity.
      * rewrite decide_False; [reflexivity|].
        intros Hin. apply elem_of_cons in Hin as [?|?]; congruence.
Qed.

Lemma interaction_label_binary (i : Interaction.t) (x : R) :
  interaction_label i = Some x -> binary_label x.
Proof.
  unfold interaction_label, binary_label.
  destruct (Interaction.interaction_type i);
    repeat (destruct (_ <=? _)%Z || destruct (_ >=? _)%Z);
    intros [= <-]; auto.
Qed.

Lemma aggregate_labels_inv (l : list Interaction.t) (acc : list (string * R)) :
  Forall (fun kv => binary_label kv.2) acc ->
  NoDup acc.*1 ->
  let d := fold_left label_step l acc in
  Forall (fun kv => binary_label kv.2) d
  /\ NoDup d.*1
  /\ (forall k, k ∈ d.*1 ->
        k ∈ acc.*1
        \/ exists i, i ∈ l /\ Interaction.venue_id i = k
                     /\ is_Some (interaction_label i))
  /\ (length d <= length acc + length l)%nat.
Proof.
  revert acc. induction l as [|i l IH]; intros acc Hbin Hnd.
  - cbn. repeat split; auto. lia.
  - cbn [fold_left]. cbv zeta in *.
    remember (label_step acc i) as acc1 eqn:Hacc1. unfold label_step in Hacc1.
    destruct (interaction_label i) as [x|] eqn:Hx; subst acc1.
    + set (acc' := dict_set acc _ _).
      assert (Hbin' : Forall (fun kv => binary_label kv.2) acc').
      { apply dict_set_values; [exact Hbin|].
        pose proof (interaction_label_binary i x Hx) as Hxb.
        assert (Hprev : binary_label
                  (default 0 (dict_get acc (Interaction.venue_id i)))).
        { destruct (dict_get acc _) as [y|] eqn:Hy; [|now left].
          apply dict_get_elem_of in Hy.
          rewrite Forall_forall in Hbin. exact (Hbin _ Hy). }
        destruct Hprev as [-> | ->], Hxb as [-> | ->]; unfold binary_label;
          [left|right|right|right]; cbn [from_option]; unfold Rmax;
          destruct (Rle_dec _ _); lra. }
      assert (Hkeys : acc'.*1 = if decide (Interaction.venue_id i ∈ acc.*1)
                                then acc.*1
                                else (acc.*1 ++ [Interaction.venue_id i])%list)
        by apply dict_set_keys.
      assert (Hnd' : NoDup acc'.*1).
      { rewrite Hkeys. destruct (decide _) as [|Hnin]; [exact Hnd|].
        apply NoDup_app. repeat split; [exact Hnd| |apply NoDup_singleton].
        intros k Hk Hk'. apply list_elem_of_singleton in Hk'. congruence. }
      destruct (IH acc' Hbin' Hnd') as (H1 & H2 & H3 & H4).
      repeat split; [exact H1|exact H2| |].
      * intros k Hk. destruct (H3 k Hk) as [Hacc|(j & Hj & Hjk & Hjl)].
        -- rewrite Hkeys in Hacc. destruct (decide _); [now left|].
           apply elem_of_app in Hacc as [?|Hlast]; [now left|].
           apply list_elem_of_singleton in Hlast as ->.
           right. exists i. repeat split; [left|now rewrite Hx].
        -- right. exists j. repeat split; [now right|exact Hjk|exact Hjl].
      * assert (length acc' <= S (length acc))%nat.
        { rewrite <- (length_fmap fst acc'), Hkeys.
          destruct (decide _); rewrite ?length_app, length_fmap; cbn; lia. }
        cbn [length]. lia.
    + destruct (IH acc Hbin Hnd) as (H1 & H2 & H3 & H4).
      repeat split; [exact H1|exact H2| |cbn [length]; lia].
      intros k Hk. destruct (H3 k Hk) as [?|(j & Hj & Hjk & Hjl)]; [now left|].
      right. exists j. repeat split; [now right|exact Hjk|exact Hjl].
Qed.

(** X12.  [venue_label] has one entry per venue: its keys are pairwise
    distinct, each is the venue of a qualifying interaction of the log, and
    every label is 0 or 1. *)
Theorem aggregate_labels_one_entry_per_venue (l : list Interaction.t) :
  NoDup (aggregate_labels l).*1
  /\ (forall k, k ∈ (aggregate_labels l).*1 ->
        exists i, i ∈ l /\ Interaction.venue_id i = k
                  /\ is_Some (interaction_label i))
  /\ Forall (fun kv => kv.2 = 0 \/ kv.2 = 1) (aggregate_labels l).
Proof.
  destruct (aggregate_labels_inv l [] (Forall_nil_2 _) NoDup_nil_2)
    as (H1 & H2 & H3 & _).
  split; [exact H2|]. split; [|exact H1].
  intros k Hk. destruct (H3 k Hk) as [Hnil|?]; [|assumption].
  now apply not_elem_of_nil in Hnil.
Qed.

Lemma sample_fold_inv (d : LunaDatabase) (p : Profile.t)
    (items : list (string * R)) (Xy : list (list R) * list R) :
  Forall (fun kv => binary_label kv.2) items ->
  length Xy.1 = length Xy.2 ->
  Forall (fun x => length x = 5%nat) Xy.1 ->
  Forall binary_label Xy.2 ->
  let Xy' := fold_left (sample_step d p) items Xy in
  length Xy'.1 = length Xy'.2
  /\ Forall (fun x => length x = 5%nat) Xy'.1
  /\ Forall binary_label Xy'.2
  /\ (length Xy'.1 <= length Xy.1 + length items)%nat.
Proof.
  intros Hitems. revert Xy. induction Hitems as [|[vid label] items Hl _ IH];
    intros Xy Hlen H5 Hbin.
  - cbn. repeat split; auto. lia.
  - cbn [fold_left]. cbv zeta in *.
    remember (sample_step d p Xy (vid, label)) as Xy1 eqn:HXy1.
    unfold sample_step in HXy1.
    destruct (get_venue d vid) as [v|]; subst Xy1.
    + destruct (IH ((Xy.1 ++ [get_venue_features v p])%list, (Xy.2 ++ [label])%list))
        as (H1 & H2 & H3 & H4); cbn [fst snd].
      * rewrite !length_app. cbn. lia.
      * apply Forall_app. split; [exact H5|].
        constructor; [reflexivity|constructor].
      * apply Forall_app. split; [exact Hbin|].
        constructor; [exact Hl|constructor].
      * repeat split; auto. cbn [fst snd] in H4. rewrite length_app in H4.
        cbn [length] in *. lia.
    + destruct (IH Xy Hlen H5 Hbin) as (H1 & H2 & H3 & H4).
      repeat split; auto. cbn [length]. lia.
Qed.

Lemma user_log_sum (uids : list string) (l : list Interaction.t) :
  NoDup uids ->
  (foldr Nat.add 0
     ((fun u => length (filter (fun i => Interaction.user_id i = u) l))
        <$> uids)
   <= length l)%nat.
Proof.
  intros Hnd. induction l as [|i l IH].
  - induction uids as [|u uids IHu]; cbn; [lia|].
    apply NoDup_cons in Hnd as [_ Hnd]. specialize (IHu Hnd). cbn in IHu. lia.
  - assert (E : forall us, NoDup us ->
              (foldr Nat.add 0
                 ((fun u => length (filter (fun i0 => Interaction.user_id i0 = u)
                                      (i :: l))) <$> us)
               <= foldr Nat.add 0
                    ((fun u => length (filter (fun i0 => Interaction.user_id i0 = u)
                                         l)) <$> us)
                  + (if decide (Interaction.user_id i ∈ us) then 1 else 0))%nat).
    { clear. induction us as [|u us IHus]; intros Hnd; [cbn; lia|].
      apply NoDup_cons in Hnd as [Hu Hnd]. specialize (IHus Hnd).
      cbn [fmap list_fmap foldr]. rewrite filter_cons.
      destruct (decide (Interaction.user_id i = u)) as [E|E].
      - subst u. rewrite decide_False in IHus by exact Hu.
        rewrite decide_True by left. cbn [length]. lia.
      - destruct (decide (Interaction.user_id i ∈ us)) as [Hin|Hnin].
        + rewrite decide_True by (now right). lia.
        + rewrite decide_False; [lia|].
          intros Hin. apply elem_of_cons in Hin as [?|?]; congruence. }
    specialize (E uids Hnd). cbn [length].
    destruct (decide _); lia.
Qed.

Lemma assemble_inv (self : RecommendationEngine) (uids : list string)
    (Xy Xy' : list (list R) * list R) :
  assemble self uids Xy = Ok Xy' ->
  length Xy.1 = length Xy.2 ->
  Forall (fun x => length x = 5%nat) Xy.1 ->
  Forall binary_label Xy.2 ->
  length Xy'.1 = length Xy'.2
  /\ Forall (fun x => length x = 5%nat) Xy'.1
  /\ Forall binary_label Xy'.2
  /\ (length Xy'.1
      <= length Xy.1
         + foldr Nat.add 0
             ((fun u => length (get_user_interactions (db self) u)) <$> uids))%nat.
Proof.
  revert Xy. induction uids as [|uid rest IH]; intros Xy Hrun Hlen H5 Hbin.
  - cbn in Hrun. injection Hrun as <-. cbn. repeat split; auto. lia.
  - cbn [assemble] in Hrun.
    destruct (build_user_profile self uid) as [p|e]; [|discriminate].
    cbn [mbind result_bind] in Hrun.
    destruct (aggregate_labels_inv (get_user_interactions (db self) uid) []
                (Forall_nil_2 _) NoDup_nil_2) as (Hb & _ & _ & Hn).
    fold (aggregate_labels (get_user_interactions (db self) uid)) in Hb, Hn.
    destruct (sample_fold_inv (db self) p _ Xy Hb Hlen H5 Hbin)
      as (H1 & H2 & H3 & H4).
    destruct (IH _ Hrun H1 H2 H3) as (G1 & G2 & G3 & G4).
    repeat split; auto. cbn [fmap list_fmap foldr length] in *. lia.
Qed.

(** X13.  The assembled training set is well formed: as many labels as
    feature vectors, five features per vector, every label 0 or 1. *)
Theorem training_set_well_formed (self : RecommendationEngine)
    (X : list (list R)) (y : list R) :
  training_set self = Ok (X, y) ->
  length X = length y
  /\ Forall (fun x => length x = 5%nat) X
  /\ Forall (fun label => label = 0 \/ label = 1) y.
Proof.
  intros Hset.
  destruct (assemble_inv self _ ([], []) (X, y) Hset eq_refl
              (Forall_nil_2 _) (Forall_nil_2 _)) as (H1 & H2 & H3 & _).
  auto.
Qed.

Lemma training_set_well_formed_witness :
  exists X y, training_set demo_engine = Ok (X, y) /\ length X = length y.
Proof.
  eexists _, _. split; [reflexivity|].
  exact (proj1 (training_set_well_formed demo_engine _ _ eq_refl)).
Defined.

(** X14.  When the user identifiers are pairwise distinct (the primary key
    of [users]), the training set has at most as many samples as the
    interaction log has rows. *)
Theorem training_set_at_most_interactions (self : RecommendationEngine)
    (X : list (list R)) (y : list R) :
  NoDup (get_all_user_ids (db self)) ->
  training_set self = Ok (X, y) ->
  (length X <= length (interactions (db self)))%nat.
Proof.
  intros Hnd Hset.
  destruct (assemble_inv self _ ([], []) (X, y) Hset eq_refl
              (Forall_nil_2 _) (Forall_nil_2 _)) as (_ & _ & _ & H).
  cbn [fst length] in H.
  pose proof (user_log_sum _ (interactions (db self)) Hnd) as Hsum.
  unfold get_user_interactions in H. lia.
Qed.

Lemma demo_user_ids_NoDup : NoDup (get_all_user_ids (db demo_engine)).
Proof.
  change (get_all_user_ids (db demo_engine))
    with (candidate_id <$> [0; 1; 3]%nat).
  apply NoDup_fmap_2; [apply _|].
  repeat (constructor; [rewrite ?elem_of_cons, ?elem_of_nil; lia|]). constructor.
Qed.

Lemma training_set_at_most_interactions_witness :
  NoDup (get_all_user_ids (db demo_engine))
  /\ exists X y, training_set demo_engine = Ok (X, y) /\ (length X <= 2)%nat.
Proof.
  split; [exact demo_user_ids_NoDup|].
  eexists _, _. split; [reflexivity|].
  exact (training_set_at_most_interactions demo_engine _ _
           demo_user_ids_NoDup eq_refl).
Defined.

(** ** CompatibilityScorer *)

Lemma overlap_ratio_range (a b : gset string) :
  0 <= INR (size (a ∩ b)) / INR (Nat.max (size (a ∪ b)) 1) <= 1.
Proof.
  assert (Hle : (size (a ∩ b) <= Nat.max (size (a ∪ b)) 1)%nat).
  { assert (size (a ∩ b) <= size (a ∪ b))%nat.
    { apply subseteq_size. etransitivity;
        [apply intersection_subseteq_l|apply union_subseteq_l]. }
    lia. }
  assert (Hpos : (1 <= Nat.max (size (a ∪ b)) 1)%nat) by lia.
  apply le_INR in Hle. apply le_INR in Hpos. cbn [INR] in Hpos.
  pose proof (pos_INR (size (a ∩ b))) as H0.
  set (x := INR (size (a ∩ b))) in *.
  set (m := INR (Nat.max (size (a ∪ b)) 1)) in *.
  split.
  - apply Rmult_le_pos; [exact H0|]. left. apply Rinv_0_lt_compat. lra.
  - apply (Rmult_le_reg_r m); [lra|]. unfold Rdiv.
    rewrite Rmult_assoc, Rinv_l by lra. lra.
Qed.

(** X15.  The compatibility score of any two profiles and each of its three
    terms lie between 0 and 1. *)
Theorem compatibility_score_range (a b : Profile.t) :
  0 <= interest_overlap a b <= 1
  /\ 0 <= category_overlap a b <= 1
  /\ 0 <= location_score a b <= 1
  /\ 0 <= compatibility_score a b <= 1.
Proof.
  assert (Hi : 0 <= interest_overlap a b <= 1) by apply overlap_ratio_range.
  assert (Hc : 0 <= category_overlap a b <= 1) by apply overlap_ratio_range.
  assert (Hl : 0 <= location_score a b <= 1).
  { apply distance_score_range; [apply calculate_distance_nonneg|lra]. }
  repeat split; try tauto; unfold compatibility_score; lra.
Qed.

Lemma overlap_ratio_same (a : gset string) :
  a <> ∅ -> INR (size (a ∩ a)) / INR (Nat.max (size (a ∪ a)) 1) = 1.
Proof.
  intros Hne.
  rewrite (idemp_L (∩) a), (idemp_L (∪) a).
  assert (size a <> 0%nat).
  { intros Hs. apply size_empty_iff in Hs. apply leibniz_equiv in Hs.
    contradiction. }
  rewrite Nat.max_l by lia.
  assert (0 < INR (size a)) by (apply lt_0_INR; lia).
  now apply Rdiv_diag; lra.
Qed.

(** X16.  Two profiles at the same coordinates with the same, non-empty set
    of interests and the same, non-empty set of scored categories have the
    compatibility score 1. *)
Theorem compatibility_score_of_twins (a b : Profile.t) :
  Profile.location a = Profile.location b ->
  (list_to_set (Profile.interests a) : gset string)
    = list_to_set (Profile.interests b) ->
  Profile.interests a <> [] ->
  dom (Profile.category_scores a) = dom (Profile.category_scores b) ->
  Profile.category_scores a <> ∅ ->
  compatibility_score a b = 1.
Proof.
  intros Hloc Hint Hne Hcat Hcne.
  unfold compatibility_score, interest_overlap, category_overlap,
    location_score. cbv zeta.
  rewrite <- Hint, <- Hcat, Hloc, calculate_distance_same.
  rewrite !overlap_ratio_same.
  - rewrite Rmax_right by lra. lra.
  - intros E. apply Hcne. now apply dom_empty_iff_L.
  - intros E. apply Hne.
    destruct (Profile.interests a) as [|x l]; [reflexivity|].
    assert (Hx : x ∈ (list_to_set (x :: l) : gset string))
      by (apply elem_of_list_to_set; left).
    rewrite E in Hx. now apply not_elem_of_empty in Hx.
Qed.

Lemma compatibility_score_of_twins_witness :
  compatibility_score demo_profile demo_twin = 1.
Proof.
  apply compatibility_score_of_twins.
  - reflexivity.
  - reflexivity.
  - discriminate.
  - cbn [demo_profile demo_twin Profile.category_scores].
    rewrite dom_fmap_L, !dom_singleton_L. reflexivity.
  - cbn [demo_profile Profile.category_scores]. intros E.
    apply (f_equal (fun m => m !! "Restaurant")) in E.
    rewrite lookup_fmap, lookup_singleton_eq, lookup_empty in E. discriminate.
Defined.

(** ** [recommend_users] *)

Lemma recommend_users_inv (self : RecommendationEngine) (uid : string)
    (limit : Z) (scored : list (User.t * R)) :
  recommend_users self uid limit = Some (Ok scored) ->
  exists target, get_user (db self) uid = Some target.
Proof.
  unfold recommend_users, recommend_users_fuel.
  destruct (build_user_profile self uid); [|discriminate].
  destruct (get_user (db self) uid); [eauto|discriminate].
Qed.

(** X17.  Whoever [recommend_users] returns is a stored user other than the
    target and not on the target's block list, and the score beside them is
    the compatibility score of the two profiles that [build_user_profile]
    builds. *)
Theorem recommend_users_excludes (self : RecommendationEngine) (uid : string)
    (limit : Z) (target : User.t) (scored : list (User.t * R))
    (u : User.t) (s : R) :
  get_user (db self) uid = Some target ->
  recommend_users self uid limit = Some (Ok scored) ->
  (u, s) ∈ scored ->
  User.user_id u <> uid
  /\ (User.user_id u ∉ User.blocked_users target)
  /\ get_user (db self) (User.user_id u) = Some u
  /\ exists p q,
       build_user_profile self uid = Ok p
       /\ build_user_profile self (User.user_id u) = Ok q
       /\ s = compatibility_score p q.
Proof.
  intros Ht Hrec Hin.
  destruct (recommend_users_total self uid limit target Ht)
    as (p & l & scored' & Hp & Hl & Hs & Hrec').
  rewrite Hrec' in Hrec. injection Hrec as <-.
  apply elem_of_slice_to, elem_of_sort_desc in Hin.
  assert (Hstored : forall u', u' ∈ l ->
            get_user (db self) (User.user_id u') = Some u').
  { intros u' Hu'.
    destruct (collect_users_sound _ _ _ _ _ _ _ Hl ltac:(intros; lia) u' Hu')
      as [Hnil|(_ & Hget & _)]; [now apply not_elem_of_nil in Hnil|exact Hget]. }
  destruct (score_users_total self p l Hstored) as (scored'' & Hs' & Hscored).
  rewrite Hs in Hs'. injection Hs' as <-.
  destruct (Hscored u s Hin) as (Hu & q & Hq & ->).
  destruct (collect_users_sound _ _ _ _ _ _ _ Hl ltac:(intros; lia) u Hu)
    as [Hnil|(_ & Hget & Hne & Hnb)]; [now apply not_elem_of_nil in Hnil|].
  repeat split; auto. exists p, q. auto.
Qed.

Lemma recommend_users_excludes_witness :
  exists s, recommend_users (init blocking_db) "user_000" 5
            = Some (Ok [(user_002, s)])
            /\ (User.user_id user_002 ∉ ["user_001"]).
Proof.
  eexists. split; [reflexivity|].
  exact (proj1 (proj2 (recommend_users_excludes (init blocking_db) "user_000" 5
                   _ _ user_002 _ eq_refl eq_refl (list_elem_of_here _ _)))).
Defined.

(** X18.  The list that [recommend_users] returns is in non-increasing
    order of score and, for [limit >= 0], has at most [limit] entries. *)
Theorem recommend_users_sorted (self : RecommendationEngine) (uid : string)
    (limit : Z) (scored : list (User.t * R)) :
  recommend_users self uid limit = Some (Ok scored) ->
  StronglySorted (fun a b => b.2 <= a.2) scored
  /\ ((0 <= limit)%Z -> (Z.of_nat (length scored) <= limit)%Z).
Proof.
  intros Hrec.
  destruct (recommend_users_inv _ _ _ _ Hrec) as [target Ht].
  destruct (recommend_users_total self uid limit target Ht)
    as (p & l & scored' & _ & _ & _ & Hrec').
  rewrite Hrec' in Hrec. injection Hrec as <-. split.
  - apply StronglySorted_slice_to, sort_desc_sorted.
  - apply length_slice_to.
Qed.

Lemma recommend_users_sorted_witness :
  exists scored,
    recommend_users demo_engine "user_000" 5 = Some (Ok scored)
    /\ StronglySorted (fun a b => b.2 <= a.2) scored.
Proof.
  eexists. split; [reflexivity|].
  exact (proj1 (recommend_users_sorted demo_engine "user_000" 5 _ eq_refl)).
Defined.

(** X19.  When no user has the identifier [user_000] the candidate loop
    stops at once: every stored user gets the empty list. *)
Theorem recommend_users_without_user_000 (self : RecommendationEngine)
    (uid : string) (limit : Z) (target : User.t) :
  get_user (db self) uid = Some target ->
  get_user (db self) "user_000" = None ->
  recommend_users self uid limit = Some (Ok []).
Proof.
  intros Ht H0.
  destruct (build_user_profile_Some self uid target Ht) as [p Hp].
  unfold recommend_users, recommend_users_fuel. rewrite Hp, Ht.
  cbn [collect_users]. change (candidate_id 0) with "user_000". rewrite H0.
  cbn [score_users mbind result_bind]. unfold sort_desc. cbn [foldr].
  unfold slice_to. now destruct (0 <=? limit)%Z; rewrite take_nil.
Qed.

Lemma recommend_users_without_user_000_witness :
  get_user (db (init late_db)) "user_003" = Some user_003
  /\ recommend_users (init late_db) "user_001" 5 = Some (Ok []).
Proof.
  split; [reflexivity|].
  exact (recommend_users_without_user_000 (init late_db) "user_001" 5 user_001
           eq_refl eq_refl).
Defined.

(** ** [recommend_groups] *)

Lemma size_list_to_set_le (l : list string) :
  (size (list_to_set l : gset string) <= length l)%nat.
Proof.
  unfold size, set_size. cbn.
  apply submseteq_length, NoDup_submseteq; [apply NoDup_elements|].
  intros x Hx. apply elem_of_elements in Hx.
  now apply elem_of_list_to_set in Hx.
Qed.

Lemma group_score_range (p : Profile.t) (g : Group.t) :
  0 <= group_score p g <= 1.
Proof.
  unfold group_score. cbv zeta.
  set (size_score := Rmin 1 (INR (length (Group.members g)) / 10)).
  assert (Hs : 0 <= size_score <= 1).
  { unfold size_score. split; [|apply Rmin_l].
    apply Rmin_glb; [lra|]. pose proof (pos_INR (length (Group.members g))). lra. }
  destruct (Group.venue_preferences g) as [|c prefs] eqn:Hprefs; [lra|].
  set (common := size _). set (n := length (c :: prefs)).
  assert (Hle : (common <= n)%nat).
  { unfold common, n. etransitivity;
      [apply subseteq_size, intersection_subseteq_r|].
    etransitivity; [apply size_list_to_set_le|]. now rewrite length_fmap. }
  assert (Hn : (1 <= n)%nat) by (unfold n; cbn; lia).
  apply le_INR in Hle. apply le_INR in Hn. cbn [INR] in Hn.
  pose proof (pos_INR common).
  assert (0 <= INR common / INR n <= 1).
  { split.
    - apply Rmult_le_pos; [lra|]. left. apply Rinv_0_lt_compat. lra.
    - apply (Rmult_le_reg_r (INR n)); [lra|]. unfold Rdiv.
      rewrite Rmult_assoc, Rinv_l by lra. lra. }
  lra.
Qed.

(** X20.  [recommend_groups] returns only groups among the candidates that
    do not have the user as a member, each with a score between 0 and 1, in
    non-increasing order of score, and at most [limit] of them for
    [limit >= 0]. *)
Theorem recommend_groups_sound (self : RecommendationEngine) (uid : string)
    (limit : Z) (all_groups : list Group.t) (scored : list (Group.t * R)) :
  recommend_groups self uid limit all_groups = Ok scored ->
  (forall g s, (g, s) ∈ scored ->
     g ∈ all_groups /\ (uid ∉ Group.members g) /\ 0 <= s <= 1)
  /\ StronglySorted (fun a b => b.2 <= a.2) scored
  /\ ((0 <= limit)%Z -> (Z.of_nat (length scored) <= limit)%Z).
Proof.
  unfold recommend_groups.
  destruct (build_user_profile self uid) as [p|e]; [|discriminate].
  cbn [mbind result_bind]. intros [= <-]. split; [|split].
  - intros g s Hin. apply elem_of_slice_to, elem_of_sort_desc in Hin.
    apply list_elem_of_fmap in Hin as (g' & [= -> ->] & Hin).
    apply list_elem_of_filter in Hin as [Hmem Hin].
    repeat split; auto; apply group_score_range.
  - apply StronglySorted_slice_to, sort_desc_sorted.
  - apply length_slice_to.
Qed.

Lemma recommend_groups_sound_witness :
  exists s, recommend_groups demo_engine "user_000" 5 [foodies; hikers]
            = Ok [(foodies, s)] /\ 0 <= s <= 1.
Proof.
  eexists. split; [reflexivity|].
  destruct (recommend_groups_sound demo_engine "user_000" 5 [foodies; hikers]
              _ eq_refl) as (H & _ & _).
  apply (H foodies). left.
Defined.

(** A group without venue preferences is scored as if half of its
    preferences matched: [0.3 + 0.4 * min(1, members/10)], whatever the
    profile; a group whose preferences share no category with the profile
    gets [0.4 * min(1, members/10)]. *)
Theorem group_score_without_overlap (p : Profile.t) (g : Group.t) :
  (Group.venue_preferences g = [] ->
   group_score p g = 0.3 + 0.4 * Rmin 1 (INR (length (Group.members g)) / 10))
  /\ (Group.venue_preferences g <> [] ->
      (forall c, c ∈ Group.venue_preferences g ->
                 Profile.category_scores p !! value c = None) ->
      group_score p g = 0.4 * Rmin 1 (INR (length (Group.members g)) / 10)).
Proof.
  unfold group_score. cbv zeta. split.
  - intros ->. lra.
  - intros Hne Hnone.
    destruct (Group.venue_preferences g) as [|c prefs] eqn:E; [congruence|].
    assert (Hempty : dom (Profile.category_scores p)
                     ∩ (list_to_set (value <$> c :: prefs) : gset string) = ∅).
    { apply leibniz_equiv. apply elem_of_equiv_empty. intros k Hk.
      apply elem_of_intersection in Hk as [Hd Hl].
      apply elem_of_list_to_set, list_elem_of_fmap in Hl as (c' & -> & Hc').
      apply elem_of_dom in Hd as [x Hx]. rewrite (Hnone c' Hc') in Hx.
      discriminate. }
    rewrite Hempty, size_empty. cbn [INR]. unfold Rdiv. lra.
Qed.

(** ** The database layer *)

(** X21.  Both enumerations survive being stored by value and read back:
    [VenueCategory(c.value)] is [c] and [InteractionType(t.value)] is [t];
    in particular distinct categories have distinct values, so they never
    share a key of [category_scores]. *)
Theorem enum_value_round_trip :
  (forall c, VenueCategory_of_value (value c) = Some c)
  /\ (forall t, InteractionType_of_value (interaction_value t) = Some t)
  /\ (forall c c', value c = value c' -> c = c').
Proof.
  assert (H : forall c, VenueCategory_of_value (value c) = Some c)
    by (intros []; reflexivity).
  split; [exact H|]. split; [intros []; reflexivity|].
  intros c c' E. pose proof (H c) as Hc. rewrite E, H in Hc. congruence.
Qed.

Lemma get_user_app_last (l : list User.t) (u : User.t) (id : string) :
  head (filter (fun v => User.user_id v = id) (l ++ [u])%list)
  = match head (filter (fun v => User.user_id v = id) l) with
    | Some v => Some v
    | None => if decide (User.user_id u = id) then Some u else None
    end.
Proof.
  rewrite filter_app. destruct (filter _ l) as [|v l'] eqn:E.
  - cbn [app head]. rewrite filter_cons, filter_nil. now destruct (decide _).
  - reflexivity.
Qed.

Lemma head_filter_None {A} (P : A -> Prop) `{!forall x, Decision (P x)}
    (l : list A) :
  (forall x, x ∈ l -> ~ P x) -> head (filter P l) = None.
Proof.
  intros Hall. destruct (filter P l) as [|x l'] eqn:E; [reflexivity|].
  assert (Hx : x ∈ filter P l) by (rewrite E; left).
  apply list_elem_of_filter in Hx as [HP Hin]. now destruct (Hall x Hin).
Qed.

(** X22.  A user that has just been inserted is what [get_user] returns
    for its identifier, whatever the table held before. *)
Theorem get_user_insert_user (d : LunaDatabase) (u : User.t) :
  get_user (insert_user d u) (User.user_id u) = Some u.
Proof.
  unfold get_user, insert_user. cbn [users]. rewrite get_user_app_last.
  rewrite head_filter_None.
  - now rewrite decide_True.
  - intros v Hv. apply list_elem_of_filter in Hv as [Hnc _].
    intros E. apply Hnc. now left.
Qed.

Lemma filter_filter_head {A} (P Q : A -> Prop) `{!forall x, Decision (P x)}
    `{!forall x, Decision (Q x)} (l : list A) (x : A) :
  head (filter P l) = Some x -> Q x ->
  head (filter P (filter Q l)) = Some x.
Proof.
  intros Hh Hq. induction l as [|y l IH]; [discriminate|].
  rewrite filter_cons in Hh. rewrite (filter_cons Q).
  destruct (decide (P y)) as [Hp|Hp].
  - injection Hh as ->. rewrite decide_True by exact Hq.
    rewrite filter_cons. now rewrite decide_True.
  - destruct (decide (Q y)); [|now apply IH].
    rewrite filter_cons. rewrite decide_False by exact Hp. now apply IH.
Qed.

(** X23.  Inserting a user leaves every stored user retrievable that
    shares neither identifier nor username nor e-mail with the new one. *)
Theorem get_user_insert_user_other (d : LunaDatabase) (u v : User.t)
    (id : string) :
  get_user d id = Some v ->
  ~ conflicts u v ->
  get_user (insert_user d u) id = Some v.
Proof.
  intros Hget Hnc. unfold get_user, insert_user in *. cbn [users].
  rewrite get_user_app_last.
  now rewrite (filter_filter_head _ (fun v0 => ~ conflicts u v0) _ v Hget Hnc).
Qed.

Lemma get_user_insert_user_other_witness :
  get_user (insert_user demo_db user_002) "user_001" = Some user_001.
Proof.
  apply get_user_insert_user_other; [reflexivity|].
  unfold conflicts. cbn. intros [H|[H|H]]; discriminate H.
Defined.

Lemma NoDup_fmap_filter {A B} (f : A -> B) (P : A -> Prop)
    `{!forall x, Decision (P x)} (l : list A) :
  NoDup (f <$> l) -> NoDup (f <$> filter P l).
Proof.
  induction l as [|x l IH]; [intros _; constructor|].
  cbn [fmap list_fmap]. intros Hnd. apply NoDup_cons in Hnd as [Hx Hnd].
  rewrite filter_cons. destruct (decide (P x)); [|now apply IH].
  cbn [fmap list_fmap]. apply NoDup_cons. split; [|now apply IH].
  intros Hin. apply Hx. apply list_elem_of_fmap in Hin as (y & -> & Hy).
  apply list_elem_of_filter in Hy as [_ Hy]. now apply list_elem_of_fmap_2.
Qed.

Lemma NoDup_snoc_fresh {A B} (f : A -> B) (l : list A) (x : A) :
  NoDup (f <$> l) -> (forall y, y ∈ l -> f y <> f x) ->
  NoDup (f <$> (l ++ [x])%list).
Proof.
  intros Hnd Hfresh. rewrite fmap_app. apply NoDup_app.
  split; [exact Hnd|]. split; [|apply NoDup_singleton].
  intros b Hb Hb'. apply list_elem_of_singleton in Hb' as ->.
  apply list_elem_of_fmap in Hb as (y & E & Hy). now apply (Hfresh y Hy).
Qed.

(** X24.  [insert_user] keeps the key constraints of the table: if
    identifiers, usernames and e-mails were pairwise distinct before, they
    are afterwards. *)
Theorem insert_user_keeps_keys_unique (d : LunaDatabase) (u : User.t) :
  users_unique d -> users_unique (insert_user d u).
Proof.
  intros (Hid & Hname & Hmail). unfold users_unique, insert_user. cbn [users].
  repeat split; (apply NoDup_snoc_fresh; [now apply NoDup_fmap_filter|]);
    intros y Hy E; apply list_elem_of_filter in Hy as [Hnc _];
    apply Hnc; unfold conflicts; auto.
Qed.

Lemma demo_users_unique : users_unique demo_db.
Proof.
  unfold users_unique.
  assert (H : NoDup ["user_000"; "user_001"; "user_003"]).
  { change ["user_000"; "user_001"; "user_003"]
      with (candidate_id <$> [0; 1; 3]%nat).
    apply NoDup_fmap_2; [apply _|].
    repeat (constructor; [rewrite ?elem_of_cons, ?elem_of_nil; lia|]).
    constructor. }
  repeat split; exact H.
Qed.

Lemma insert_user_keeps_keys_unique_witness :
  users_unique demo_db /\ users_unique (insert_user demo_db user_002).
Proof.
  split; [exact demo_users_unique|].
  exact (insert_user_keeps_keys_unique demo_db user_002 demo_users_unique).
Defined.

(** X25.  [INSERT OR REPLACE] deletes: a stored user with another
    identifier but the username or the e-mail of the inserted user is gone
    afterwards. *)
Theorem insert_user_deletes_conflicting_user (d : LunaDatabase) (u v : User.t)
    (id : string) :
  NoDup (User.user_id <$> users d) ->
  get_user d id = Some v ->
  id <> User.user_id u ->
  User.username v = User.username u \/ User.email v = User.email u ->
  get_user (insert_user d u) id = None.
Proof.
  intros Hnd Hget Hne Hdup. unfold get_user, insert_user in *. cbn [users].
  rewrite get_user_app_last.
  assert (Hv : v ∈ users d /\ User.user_id v = id).
  { destruct (filter _ (users d)) as [|v' l'] eqn:E; [discriminate|].
    injection Hget as ->.
    assert (Hin : v ∈ filter (fun v0 => User.user_id v0 = id) (users d))
      by (rewrite E; left).
    apply list_elem_of_filter in Hin. tauto. }
  destruct Hv as [Hv Hvid].
  rewrite head_filter_None.
  - rewrite decide_False by congruence. reflexivity.
  - intros y Hy Hid. apply list_elem_of_filter in Hy as [Hnc Hy].
    assert (y = v); [|subst y; apply Hnc; unfold conflicts; tauto].
    apply list_elem_of_lookup in Hy as [i Hi].
    apply list_elem_of_lookup in Hv as [j Hj].
    assert (i = j); [|congruence].
    apply (NoDup_lookup _ i j id Hnd); rewrite list_lookup_fmap.
    + rewrite Hi. cbn. congruence.
    + rewrite Hj. cbn. congruence.
Qed.

Lemma insert_user_deletes_conflicting_user_witness :
  get_user demo_db "user_001" = Some user_001
  /\ get_user (insert_user demo_db impostor) "user_001" = None
  /\ get_user (insert_user demo_db impostor) "user_009" = Some impostor.
Proof.
  split; [reflexivity|]. split; [|reflexivity].
  apply (insert_user_deletes_conflicting_user demo_db impostor user_001);
    [apply demo_users_unique|reflexivity|discriminate|now left].
Defined.



(** ** The agent *)

Lemma itinerary_filter_subset (vibe : string) (recs : list (Venue.t * R))
    (v : Venue.t) :
  v ∈ itinerary_filter vibe recs -> v ∈ recs.*1.
Proof.
  unfold itinerary_filter.
  repeat (destruct (decide _)); intros Hin; try exact Hin;
    apply list_elem_of_fmap in Hin as (r & -> & Hr);
    apply list_elem_of_filter in Hr as [_ Hr];
    now apply list_elem_of_fmap_2.
Qed.

(** X27.  [generate_itinerary] plans at most [num_venues] stops, every stop
    is a venue of the catalog, and the stop at position [i] starts at
    [(18 + 2*i) mod 24] o'clock; [total_duration_hours] is [2 * num_venues]
    even when fewer stops, or none, are planned. *)
Theorem generate_itinerary_stops (rec_engine : RecommendationEngine)
    (user_id : string) (num_venues : Z) (vibe : string) (plan : Itinerary) :
  generate_itinerary rec_engine user_id num_venues vibe = Ok plan ->
  total_duration_hours plan = (num_venues * 2)%Z
  /\ ((0 <= num_venues)%Z ->
      (Z.of_nat (length (itinerary plan)) <= num_venues)%Z)
  /\ (get_all_venues (db rec_engine) = [] -> itinerary plan = [])
  /\ forall i item,
       itinerary plan !! i = Some item ->
       it_time item = format_02d ((18 + i * 2) mod 24) ++ ":00"
       /\ it_duration_hours item = 2%Z
       /\ exists v, v ∈ get_all_venues (db rec_engine)
                    /\ it_venue item = Venue.name v
                    /\ it_venue_id item = Venue.venue_id v
                    /\ it_category item = value (Venue.category v).
Proof.
  unfold generate_itinerary.
  destruct (recommend_venues rec_engine user_id (num_venues * 2) false)
    as [[recs reasoning]|e] eqn:Hrec; [|discriminate].
  cbn [mbind result_bind]. intros [= <-].
  cbn [itinerary total_duration_hours].
  destruct (recommend_venues_Ok_profile _ _ _ _ _ _ Hrec) as [p Hp].
  assert (Hcat : forall v, v ∈ itinerary_filter vibe recs ->
                           v ∈ get_all_venues (db rec_engine)).
  { intros v Hv. apply itinerary_filter_subset in Hv.
    apply list_elem_of_fmap in Hv as ([v' s] & -> & Hr).
    now destruct (elem_of_recommend_venues _ _ _ _ _ _ _ _ _ Hrec Hp Hr). }
  split; [reflexivity|]. split; [|split].
  - intros Hn. rewrite length_imap. now apply length_slice_to.
  - intros Hempty.
    destruct (slice_to num_venues (itinerary_filter vibe recs)) as [|v l] eqn:E;
      [reflexivity|].
    assert (Hv : v ∈ get_all_venues (db rec_engine)).
    { apply Hcat, (elem_of_slice_to num_venues). rewrite E. left. }
    rewrite Hempty in Hv. now apply not_elem_of_nil in Hv.
  - intros i item Hi. rewrite list_lookup_imap in Hi.
    destruct (slice_to num_venues (itinerary_filter vibe recs) !! i)
      as [v|] eqn:Hv; [|discriminate].
    injection Hi as <-. split; [reflexivity|]. split; [reflexivity|].
    exists v. split; [|auto].
    apply Hcat, (elem_of_slice_to num_venues). eapply list_elem_of_lookup_2, Hv.
Qed.

Lemma generate_itinerary_stops_witness :
  exists plan,
    generate_itinerary (init cold_db) "user_000" 3 "adventure" = Ok plan
    /\ itinerary plan = [] /\ total_duration_hours plan = 6%Z.
Proof.
  eexists. split; [reflexivity|]. split; [reflexivity|].
  exact (proj1 (generate_itinerary_stops (init cold_db) "user_000" 3
                  "adventure" _ eq_refl)).
Defined.

(** X28.  Which categories the vibe filters of [generate_itinerary] keep:
    "adventure" keeps hiking, beach and nightlife venues; "calm" keeps parks
    and art galleries only, since the key "cafe" does not occur in "café". *)
Theorem itinerary_filter_by_category (recs : list (Venue.t * R)) (v : Venue.t) :
  (v ∈ itinerary_filter "adventure" recs
   <-> v ∈ recs.*1
       /\ Venue.category v ∈ [HIKING; BEACH; NIGHTLIFE])
  /\ (v ∈ itinerary_filter "calm" recs
      <-> v ∈ recs.*1 /\ Venue.category v ∈ [PARK; ART]).
Proof.
  unfold itinerary_filter.
  rewrite (decide_False (P := "adventure" = "romantic")) by discriminate.
  rewrite (decide_True (P := "adventure" = "adventure")) by reflexivity.
  rewrite (decide_False (P := "calm" = "romantic")) by discriminate.
  rewrite (decide_False (P := "calm" = "adventure")) by discriminate.
  rewrite (decide_True (P := "calm" = "calm")) by reflexivity.
  split; split.
  - intros Hin. apply list_elem_of_fmap in Hin as (r & -> & Hr).
    apply list_elem_of_filter in Hr as [Hk Hr].
    split; [now apply list_elem_of_fmap_2|].
    destruct (Venue.category r.1); try discriminate Hk;
      rewrite !elem_of_cons; auto.
  - intros [Hin Hc]. apply list_elem_of_fmap in Hin as (r & -> & Hr).
    apply list_elem_of_fmap_2, list_elem_of_filter. split; [|exact Hr].
    rewrite !elem_of_cons, elem_of_nil in Hc.
    destruct Hc as [->|[->|[->|[]]]]; reflexivity.
  - intros Hin. apply list_elem_of_fmap in Hin as (r & -> & Hr).
    apply list_elem_of_filter in Hr as [Hk Hr].
    split; [now apply list_elem_of_fmap_2|].
    destruct (Venue.category r.1); try discriminate Hk;
      rewrite !elem_of_cons; auto.
  - intros [Hin Hc]. apply list_elem_of_fmap in Hin as (r & -> & Hr).
    apply list_elem_of_fmap_2, list_elem_of_filter. split; [|exact Hr].
    rewrite !elem_of_cons, elem_of_nil in Hc.
    destruct Hc as [->|[->|[]]]; reflexivity.
Qed.

(** X29.  The rule-based intent parser always answers with one of the
    actions plan, recommend, book and query, never with its initial value
    "search"; a message that contains "plan" is a plan whatever else it
    says, and one that contains "calm" has the vibe calm. *)
Theorem rule_based_intent_actions (user_message : string) :
  action (rule_based_intent user_message)
    ∈ ["plan"; "recommend"; "book"; "query"]
  /\ action (rule_based_intent user_message) <> "search"
  /\ (contains "plan" (lower user_message) = true ->
      action (rule_based_intent user_message) = "plan")
  /\ (contains "calm" (lower user_message) = true ->
      vibe_parameter (rule_based_intent user_message) = Some "calm").
Proof.
  unfold rule_based_intent. cbv zeta. cbn [action vibe_parameter].
  split; [|split; [|split]].
  - repeat (destruct (any_in _ _)); rewrite !elem_of_cons; auto.
  - repeat (destruct (any_in _ _)); discriminate.
  - intros H. unfold any_in at 1. cbn [existsb]. now rewrite H.
  - intros H. rewrite H, orb_true_r. reflexivity.
Qed.

Lemma slice_to_nonempty {A} (n : Z) (l : list A) :
  (0 < n)%Z -> l <> [] -> slice_to n l <> [].
Proof.
  intros Hn Hl. unfold slice_to. destruct (Z.leb_spec 0 n); [|lia].
  destruct l as [|x l]; [congruence|].
  destruct (Z.to_nat n) as [|k] eqn:E; [lia|]. discriminate.
Qed.

Lemma cuisine_filter_subset (c : string) (recs : list (Venue.t * R)) r :
  r ∈ cuisine_filter c recs -> r ∈ recs.
Proof.
  unfold cuisine_filter. repeat (destruct (decide _)); intros Hin;
    try exact Hin; now apply list_elem_of_filter in Hin.
Qed.

Lemma group_vibe_filter_subset (g : string) (recs : list (Venue.t * R)) r :
  r ∈ group_vibe_filter g recs -> r ∈ recs.
Proof.
  unfold group_vibe_filter. repeat (destruct (decide _)); intros Hin;
    try exact Hin; now apply list_elem_of_filter in Hin.
Qed.

(** X30.  The fail-safe of [analyze_group_chat]: for a stored user, a chat
    with at least one message and a catalog with at least one venue, the
    analysis recommends between one and three venues, all of the catalog,
    whatever vibe and cuisine were detected. *)
Theorem analyze_group_chat_failsafe (rec_engine : RecommendationEngine)
    (group_messages : list string) (user_id : string) (group_vibe : string)
    (cuisine_pref : option string) (budget_pref : string) (mood_score : Z) :
  is_Some (get_user (db rec_engine) user_id) ->
  group_messages <> [] ->
  get_all_venues (db rec_engine) <> [] ->
  exists analysis,
    analyze_group_chat rec_engine group_messages user_id group_vibe
      cuisine_pref budget_pref mood_score = Ok (Some analysis)
    /\ ga_recommendations analysis <> []
    /\ (length (ga_recommendations analysis) <= 3)%nat
    /\ forall r, r ∈ ga_recommendations analysis ->
                 r.1 ∈ get_all_venues (db rec_engine).
Proof.
  intros [u Hu] Hmsgs Hcat.
  destruct (build_user_profile_Some rec_engine user_id u Hu) as [p Hp].
  unfold analyze_group_chat.
  destruct group_messages as [|m ms]; [congruence|].
  rewrite (recommend_venues_shape rec_engine user_id 20 false p Hp).
  cbn [mbind result_bind fst]. cbv zeta.
  set (recs := (fun v => (v, heuristic_score p v)) <$> _).
  set (cuisine := if falsy _ then _ else _).
  set (cf := cuisine_filter cuisine recs).
  set (vf := group_vibe_filter group_vibe cf).
  set (vf1 := match vf with [] => cf | _ => vf end).
  set (vf2 := match vf1 with [] => recs | _ => vf1 end).
  assert (Hrecs : recs <> []).
  { unfold recs. intros E. apply (f_equal length) in E.
    rewrite length_fmap, length_slice_to_exact, length_sort_desc in E.
    cbn in E. destruct (get_all_venues (db rec_engine)); [congruence|].
    cbn in E. lia. }
  assert (Hvf2 : vf2 <> []).
  { unfold vf2. destruct vf1; [exact Hrecs|discriminate]. }
  assert (Hsub : forall r, r ∈ vf2 -> r ∈ recs).
  { intros r. unfold vf2, vf1.
    destruct vf eqn:Evf.
    - destruct cf eqn:Ecf; [auto|].
      intros Hr. rewrite <- Ecf in Hr. now apply cuisine_filter_subset in Hr.
    - intros Hr. rewrite <- Evf in Hr. unfold vf in Hr.
      now apply group_vibe_filter_subset, cuisine_filter_subset in Hr. }
  eexists. split; [reflexivity|]. cbn [ga_recommendations].
  split; [now apply slice_to_nonempty|]. split.
  - pose proof (length_slice_to 3 vf2). lia.
  - intros r Hr. apply elem_of_slice_to, Hsub in Hr. unfold recs in Hr.
    apply list_elem_of_fmap in Hr as (v & -> & Hv).
    now apply elem_of_slice_to, elem_of_sort_desc in Hv.
Qed.

Lemma analyze_group_chat_failsafe_witness :
  exists analysis,
    analyze_group_chat demo_engine ["sushi tonight?"] "user_000" "party"
      None "medium" 60 = Ok (Some analysis)
    /\ ga_cuisine analysis = "japanese"
    /\ ga_recommendations analysis <> [].
Proof.
  destruct (analyze_group_chat_failsafe demo_engine ["sushi tonight?"]
              "user_000" "party" None "medium" 60)
    as (analysis & Hrun & Hne & _).
  - now exists user_000.
  - discriminate.
  - discriminate.
  - exists analysis. split; [exact Hrun|]. split; [|exact Hne].
    assert (E : exists a, analyze_group_chat demo_engine ["sushi tonight?"]
                  "user_000" "party" None "medium" 60 = Ok (Some a)
                /\ ga_cuisine a = "japanese")
      by (eexists; split; reflexivity).
    destruct E as (a & Ha & Hc). rewrite Hrun in Ha. now injection Ha as ->.
Defined.
